(** * scripts/convert-to-retry.py: the import patcher for Supabase services

    The script scans [services/supabase/*.ts], adds the [withRetry] import
    after the [supabase] client import when the file does not mention
    [withRetry] yet, counts the [Promise.race] call sites that are left for
    manual conversion, and rewrites a file only when its text changed.

    Conventions of the embedding.
    - A Python [str] is a [text]: the list of the bytes of its UTF-8
      encoding.  Every pattern of the script is pure ASCII, and no byte of a
      multi-byte UTF-8 sequence is an ASCII byte, so searching the bytes finds
      the same matches as searching the code points.
    - Both regular expressions of the script are literals: in
      [import { supabase } from '@/lib/supabase/client';] the braces do not
      form a quantifier and no other character is special, and in
      [Promise\.race] the dot is escaped.  [re.sub] and [re.findall] are
      therefore the leftmost, non-overlapping scan for a literal; the single
      group of the import pattern spans the whole match.
    - The file system is what the script can observe of it: whether
      [services/supabase] exists, and the entries directly inside it.  The
      content of a text file is the text that [open(..., encoding='utf-8')]
      delivers and accepts, that is after decoding and newline translation;
      every statement about the content of a file is about this text, not
      about the bytes on the disk.  A text file may refuse to be opened for
      writing.  An entry that cannot be read as text (a sub-directory, bytes
      that are not UTF-8, a file the process may not open) makes [open] or
      [read] raise.  The script catches nothing.
    - [glob] lists a directory in the order of [os.scandir], which is not
      specified.  The listing is a parameter of the run: every statement
      about [main] holds for every order.
    - Console output and the calls of [open] are recorded in the state, so
      that "prints" and "does not write" are statements about a run. *)

From Stdlib Require Import Ascii String DecimalString.
From stdpp Require Import gmap strings list fin_maps.

Local Open Scope string_scope.
Local Open Scope list_scope.

(** ** Text *)

Abbreviation text := (list ascii).

Definition lit (s : string) : text := list_ascii_of_string s.

Definition LF : ascii := "010"%char.

(** [s.startswith(p)] *)
Fixpoint startswith (p s : text) : bool :=
  match p, s with
  | [], _ => true
  | _ :: _, [] => false
  | a :: p', b :: s' => Ascii.eqb a b && startswith p' s'
  end.

(** [p in s] *)
Fixpoint contains (p s : text) : bool :=
  startswith p s ||
  match s with
  | [] => false
  | _ :: s' => contains p s'
  end.

(** Number of positions of [s] at which [p] occurs. *)
Fixpoint occurrences (p s : text) : nat :=
  (if startswith p s then 1 else 0) +
  match s with
  | [] => 0
  | _ :: s' => occurrences p s'
  end.

(** [sep.join(segs)] *)
Fixpoint join (sep : text) (segs : list text) : text :=
  match segs with
  | [] => []
  | [s] => s
  | s :: rest => s ++ sep ++ join sep rest
  end.

(** A pattern that cannot overlap a shifted copy of itself: no proper
    non-empty prefix of [p] is also a suffix of [p]. *)
Definition unbordered (p : text) : bool :=
  forallb (fun j => negb (startswith (drop j p) p)) (seq 1 (length p - 1)).

(** ** The two [re] functions, for a non-empty literal pattern *)

Module re.

(** A replacement template: [\1] and literal characters. *)
Inductive item := Group1 | Chars (cs : text).

Definition expand (template : list item) (matched : text) : text :=
  flat_map (fun it => match it with Group1 => matched | Chars cs => cs end)
           template.

(** The scanner walks the subject once.  [skip] is the number of
    characters of the current match that are still to be consumed; at
    [skip = 0] the pattern is tried at the current position. *)
Fixpoint sub_scan (p : text) (template : list item) (skip : nat) (s : text)
  : text :=
  match s with
  | [] => []
  | c :: s' =>
      match skip with
      | S k => sub_scan p template k s'
      | O =>
          if startswith p s
          then expand template p ++ sub_scan p template (length p - 1) s'
          else c :: sub_scan p template 0 s'
      end
  end.

(** [re.sub(p, template, s)] *)
Definition sub (p : text) (template : list item) (s : text) : text :=
  sub_scan p template 0 s.

Fixpoint findall_scan (p : text) (skip : nat) (s : text) : list text :=
  match s with
  | [] => []
  | c :: s' =>
      match skip with
      | S k => findall_scan p k s'
      | O =>
          if startswith p s
          then p :: findall_scan p (length p - 1) s'
          else findall_scan p 0 s'
      end
  end.

(** [re.findall(p, s)] *)
Definition findall (p : text) (s : text) : list text :=
  findall_scan p 0 s.

(** The pieces of the subject between the matches, [re.split(p, s)]. *)
Fixpoint split_scan (p : text) (skip : nat) (s : text) : list text :=
  match s with
  | [] => [[]]
  | c :: s' =>
      match skip with
      | S k => split_scan p k s'
      | O =>
          if startswith p s
          then [] :: split_scan p (length p - 1) s'
          else match split_scan p 0 s' with
               | seg :: rest => (c :: seg) :: rest
               | [] => [[c]]
               end
      end
  end.

Definition split (p : text) (s : text) : list text := split_scan p 0 s.

End re.

(** ** The constants of the script *)

Definition marker : text := lit "withRetry".

Definition import_pattern : text :=
  lit "import { supabase } from '@/lib/supabase/client';".

Definition retry_import : text :=
  lit "import { withRetry } from '@/lib/supabase/retry';".

(** [r"\1\nimport { withRetry } from '@/lib/supabase/retry';"] *)
Definition replacement : list re.item :=
  [re.Group1; re.Chars (LF :: retry_import)].

Definition promise_race : text := lit "Promise.race".


(** ** The world of the script *)

(** What [services/supabase] can hold under a name. *)
Inductive entry :=
| TextFile (content : text) (writable : bool)
                              (* a regular file holding UTF-8 text, which
                                 [open(..., 'w')] accepts or refuses *)
| BinaryFile                  (* a regular file whose bytes are not UTF-8 *)
| SubDir                      (* a directory *)
| NoAccess.                   (* a file the process may not open *)

(** The path [services/supabase] itself: nothing is there, or something
    that [glob] finds nothing in (a regular file, say), or a directory with
    its entries. *)
Inductive services_dir_state :=
| Absent
| NotADirectory
| Directory (entries : gmap string entry).

Inductive exn :=
| SystemExit (code : Z)
| FileNotFoundError
| IsADirectoryError
| PermissionError
| UnicodeDecodeError.

(** The lines the script prints, one constructor per [print] call. *)
Inductive message :=
| Converting (file_path : string)
| AddedImport
| FoundPatterns (promise_race_count : nat)
| ManualRecommended
| ErrorNotFound (services_dir : string)
| FoundFiles (n : nat)
| Updated (converted_count : nat)
| NextStep
| SeeExamples.

(** Calls of [open] on a file of the directory, whether they succeed or
    not. *)
Inductive file_op :=
| OpenRead (name : string)
| OpenWrite (name : string) (content : text).

Record world := World {
  disk : services_dir_state;
  stdout : list message;
  file_ops : list file_op
}.

Definition str_of_nat (n : nat) : string :=
  NilZero.string_of_uint (Nat.to_uint n).

(** The text each [print] call writes, without the final newline that
    [print] adds. *)
Definition render (m : message) : string :=
  match m with
  | Converting file_path => "Converting: " ++ file_path
  | AddedImport => "  ✓ Added withRetry import"
  | FoundPatterns n =>
      "  → Found " ++ str_of_nat n ++ " Promise.race patterns"
  | ManualRecommended => "  → Manual conversion recommended"
  | ErrorNotFound d => "Error: " ++ d ++ " not found"
  | FoundFiles n =>
      "Found " ++ str_of_nat n ++ " service files" ++ String LF ""
  | Updated n =>
      String LF "" ++ "✓ Updated " ++ str_of_nat n ++ " files"
  | NextStep =>
      String LF "" ++ "Next: Manually convert Promise.race patterns to withRetry"
  | SeeExamples => "See services/supabase/stories.ts for examples"
  end.

(** ** Statements: state and exceptions *)

Inductive outcome (A : Type) :=
| Ok (a : A)
| Raise (e : exn).
Arguments Ok {A} a.
Arguments Raise {A} e.

Definition M (A : Type) : Type := world -> outcome A * world.

Definition ret {A} (a : A) : M A := fun w => (Ok a, w).

Definition bind {A B} (m : M A) (k : A -> M B) : M B :=
  fun w =>
    match m w with
    | (Ok a, w') => k a w'
    | (Raise e, w') => (Raise e, w')
    end.

Definition raise {A} (e : exn) : M A := fun w => (Raise e, w).

Notation "x <- m ;; k" := (bind m (fun x => k))
  (at level 100, m at next level, right associativity, only parsing).
Notation "'run' m ;; k" := (bind m (fun _ => k))
  (at level 100, m at next level, right associativity, only parsing).

(** [print(...)] *)
Definition print (m : message) : M unit :=
  fun w => (Ok tt, World (disk w) (stdout w ++ [m]) (file_ops w)).

Definition log_op (o : file_op) : M unit :=
  fun w => (Ok tt, World (disk w) (stdout w) (file_ops w ++ [o])).

Definition lookup_entry (name : string) (d : services_dir_state)
  : option entry :=
  match d with
  | Directory entries => entries !! name
  | _ => None
  end.

(** [with open(file_path, 'r', encoding='utf-8') as f: f.read()] *)
Definition read_text (name : string) : M text :=
  run log_op (OpenRead name) ;;
  fun w =>
    match lookup_entry name (disk w) with
    | Some (TextFile content _) => (Ok content, w)
    | Some BinaryFile => (Raise UnicodeDecodeError, w)
    | Some SubDir => (Raise IsADirectoryError, w)
    | Some NoAccess => (Raise PermissionError, w)
    | None => (Raise FileNotFoundError, w)
    end.

(** [with open(file_path, 'w', encoding='utf-8') as f: f.write(content)].
    Opening fails before anything is truncated.  The script opens for
    writing only what it has just read, a text file; the other cases are
    there for completeness: mode ['w'] truncates a file whatever it held,
    and creates a missing one. *)
Definition write_text (name : string) (content : text) : M unit :=
  run log_op (OpenWrite name content) ;;
  fun w =>
    match disk w with
    | Directory entries =>
        match entries !! name with
        | Some SubDir => (Raise IsADirectoryError, w)
        | Some (TextFile _ false) | Some NoAccess =>
            (Raise PermissionError, w)
        | Some (TextFile _ true) | Some BinaryFile | None =>
            (Ok tt,
             World (Directory (<[name := TextFile content true]> entries))
                   (stdout w) (file_ops w))
        end
    | _ => (Raise FileNotFoundError, w)
    end.

(** [services_dir.exists()] *)
Definition dir_exists : M bool :=
  fun w =>
    (Ok match disk w with Absent => false | _ => true end, w).

(** [name] matches the glob pattern [*.ts]: after any prefix, taken by the
    star, the rest of the name is [.ts]. *)
Fixpoint matches_ts (name : string) : bool :=
  String.eqb name ".ts" ||
  match name with
  | EmptyString => false
  | String _ rest => matches_ts rest
  end.

Definition services_dir : string := "services/supabase".

(** The path the script holds for an entry of the directory. *)
Definition path_of (name : string) : string :=
  services_dir ++ "/" ++ name.

(** ** The script *)

(** The text [convert_file] computes from the text it read. *)
Definition new_content (content : text) : text :=
  if negb (contains marker content)
  then re.sub import_pattern replacement content
  else content.

(** [convert_file(file_path)], for [file_path = services_dir / name]. *)
Definition convert_file (name : string) : M bool :=
  run print (Converting (path_of name)) ;;
  content <- read_text name ;;
  let original_content := content in
  content <-
    (if negb (contains marker content)
     then
       let content := re.sub import_pattern replacement content in
       run print AddedImport ;;
       ret content
     else ret content) ;;
  let promise_race_count := length (re.findall promise_race content) in
  run (if (0 <? promise_race_count)%nat
       then
         run print (FoundPatterns promise_race_count) ;;
         print ManualRecommended
       else ret tt) ;;
  if bool_decide (content <> original_content)
  then
    run write_text name content ;;
    ret true
  else ret false.

(** The [for ts_file in ts_files] loop of [main]. *)
Fixpoint convert_all (ts_files : list string) (converted_count : nat)
  : M nat :=
  match ts_files with
  | [] => ret converted_count
  | ts_file :: rest =>
      changed <- convert_file ts_file ;;
      convert_all rest
        (if changed then converted_count + 1 else converted_count)
  end.

(** The exit status of the process: [0] when [main] returns, the argument
    of [sys.exit], and [1] for any other uncaught exception. *)
Definition exit_status (r : outcome unit) : Z :=
  match r with
  | Ok _ => 0
  | Raise (SystemExit code) => code
  | Raise _ => 1
  end.

(** A fresh process started on a given disk. *)
Definition boot (d : services_dir_state) : world := World d [] [].

(** What the console shows: which count of [Promise.race] patterns, if
    any, the output reports. *)
Fixpoint reported_count (out : list message) : option nat :=
  match out with
  | [] => None
  | FoundPatterns n :: _ => Some n
  | _ :: rest => reported_count rest
  end.

Definition has_write (ops : list file_op) : bool :=
  existsb (fun o => match o with OpenWrite _ _ => true | _ => false end) ops.

(** ** Vocabulary of the statements *)

(** What [\1\nimport ...] expands to at a match. *)
Definition inserted_line : text := LF :: retry_import.

(** The two import lines without their final semicolon. *)
Definition import_head : text :=
  lit "import { supabase } from '@/lib/supabase/client'".

Definition retry_head : text :=
  lit "import { withRetry } from '@/lib/supabase/retry'".

(** The lines a call prints for a file holding [c]. *)
Definition convert_messages (name : string) (c : text) : list message :=
  Converting (path_of name)
  :: (if contains marker c then [] else [AddedImport])
  ++ (let n := length (re.findall promise_race (new_content c)) in
      if (0 <? n)%nat then [FoundPatterns n; ManualRecommended] else []).

(** The files a call opens for a file holding [c]. *)
Definition convert_ops (name : string) (c : text) : list file_op :=
  OpenRead name
  :: (if bool_decide (new_content c <> c)
      then [OpenWrite name (new_content c)] else []).

(** How a call ends for a text file holding [c]. *)
Definition convert_outcome (c : text) (writable : bool) : outcome bool :=
  if bool_decide (new_content c <> c)
  then if writable then Ok true else Raise PermissionError
  else Ok false.

(** What a call that returns leaves of an entry. *)
Definition patch_entry (e : entry) : entry :=
  match e with
  | TextFile c writable => TextFile (new_content c) writable
  | _ => e
  end.

(** Whether an entry is a file of some kind, not a directory. *)
Definition is_file (e : entry) : bool :=
  match e with SubDir => false | _ => true end.

(** Whether [convert_file] rewrites the file under [name]. *)
Definition changed (entries : gmap string entry) (name : string) : bool :=
  match entries !! name with
  | Some (TextFile c writable) =>
      bool_decide (new_content c <> c) && writable
  | _ => false
  end.

(** Whether [convert_file] returns for [name]: the entry is a text file,
    and can be opened for writing if its content changes. *)
Definition convertible (entries : gmap string entry) (name : string) : bool :=
  match entries !! name with
  | Some (TextFile c writable) =>
      writable || negb (bool_decide (new_content c <> c))
  | _ => false
  end.

(** The exception that opening an entry other than a text file for
    reading raises. *)
Definition open_error (o : option entry) : exn :=
  match o with
  | Some BinaryFile => UnicodeDecodeError
  | Some SubDir => IsADirectoryError
  | Some NoAccess => PermissionError
  | _ => FileNotFoundError
  end.

(** The exception [convert_file] ends on when it does not return. *)
Definition failure (entries : gmap string entry) (name : string) : exn :=
  match entries !! name with
  | Some (TextFile _ _) => PermissionError
  | o => open_error o
  end.

(** What a call prints and opens, whatever is under [name]. *)
Definition messages_of (entries : gmap string entry) (name : string)
  : list message :=
  match entries !! name with
  | Some (TextFile c _) => convert_messages name c
  | _ => [Converting (path_of name)]
  end.

Definition ops_of (entries : gmap string entry) (name : string)
  : list file_op :=
  match entries !! name with
  | Some (TextFile c _) => convert_ops name c
  | _ => [OpenRead name]
  end.

(** The directory after a run that returned from every call. *)
Definition patched (entries : gmap string entry) : gmap string entry :=
  map_imap (fun name e => Some (if matches_ts name then patch_entry e else e))
           entries.


(** The messages a call of [convert_file] prints, started on a fresh
    process. *)
Definition printed_by (name : string) (d : services_dir_state) : list message :=
  stdout (snd (convert_file name (boot d))).

(** Whether [convert_file] returns [True] for [name] on the disk [d]. *)
Definition returns_true (d : services_dir_state) (name : string) : bool :=
  match fst (convert_file name (boot d)) with
  | Ok true => true
  | _ => false
  end.

(** Two import lines and no marker. *)
Definition two_imports : text :=
  import_pattern ++ LF :: import_pattern ++ [LF].

(** What the count lines of a call are, in terms of the text read. *)
Definition count_lines (c : text) : list message :=
  if decide (occurrences promise_race c = 0) then []
  else [FoundPatterns (occurrences promise_race c); ManualRecommended].

(** The file an [open] call names. *)
Definition op_name (o : file_op) : string :=
  match o with
  | OpenRead name => name
  | OpenWrite name _ => name
  end.

(** Membership in a list that is written out: one case per element,
    those with another constructor dropped. *)
Ltac in_explicit H :=
  repeat (apply elem_of_cons in H as [H|H]; [try discriminate H|]);
  try (by apply elem_of_nil in H).

(** ** Sample directories and listings *)

(** Two listings of a directory: by the order of the keys of the map, and
    by the reverse of it. *)
Definition key_order (entries : gmap string entry) : list string :=
  map fst (map_to_list entries).

Definition reverse_key_order (entries : gmap string entry) : list string :=
  reverse (key_order entries).

(** One text file that needs the import, beside a file that does not. *)
Definition two_files : gmap string entry :=
  <["api.ts" := TextFile (import_pattern ++ [LF]) true]>
    {["util.ts" := TextFile (lit "export {};") true]}.

Definition sample_dir : services_dir_state :=
  Directory
    (<["stories.ts" := TextFile (retry_import ++ LF :: lit "Promise.race([p, t]);") true]>
    (<["worlds.ts" := TextFile (import_pattern ++ LF :: lit "Promise.race([q, t]);") true]>
    (<["notes.md" := TextFile import_pattern true]> ∅))).

(** Three entries match [*.ts]: one to rewrite, one that cannot be opened
    for writing and needs no change, one that is already converted; the
    fourth entry does not match. *)
Definition mixed_files : gmap string entry :=
  <["api.ts" := TextFile (import_pattern ++ [LF]) true]>
  (<["frozen.ts" := TextFile (lit "export {};") false]>
  (<["stories.ts" := TextFile (retry_import ++ [LF]) true]>
  {["notes.md" := TextFile import_pattern true]})).

(** A text file that needs the import and cannot be opened for writing. *)
Definition locked_files : gmap string entry :=
  <["api.ts" := TextFile (import_pattern ++ [LF]) false]>
    {["util.ts" := TextFile (lit "export {};") true]}.

(** ** The batch, for a listing of the directory *)

Section Listing.

(** [os.scandir]: the names in a directory, each once, in some order. *)
Variable scandir : gmap string entry -> list string.

Hypothesis scandir_lists :
  forall entries,
    NoDup (scandir entries)
    /\ forall name, name ∈ scandir entries <-> is_Some (entries !! name).

(** [list(services_dir.glob('*.ts'))]: the names directly inside the
    directory that match, files or not, in the order of the listing. *)
Definition ts_names (entries : gmap string entry) : list string :=
  filter (fun name => matches_ts name = true) (scandir entries).

Definition glob_ts : M (list string) :=
  fun w =>
    (Ok match disk w with
        | Directory entries => ts_names entries
        | _ => []
        end, w).

Definition main : M unit :=
  found <- dir_exists ;;
  run (if negb found
       then
         run print (ErrorNotFound services_dir) ;;
         raise (SystemExit 1)
       else ret tt) ;;
  ts_files <- glob_ts ;;
  run print (FoundFiles (length ts_files)) ;;
  converted_count <- convert_all ts_files 0 ;;
  run print (Updated converted_count) ;;
  run print NextStep ;;
  print SeeExamples.

Definition run_script (d : services_dir_state) : Z * world :=
  let (r, w) := main (boot d) in (exit_status r, w).

(** * Properties *)

(** ** Literal matching *)

Lemma startswith_app p t : startswith p (p ++ t) = true.
Proof.
  induction p as [|a p IH]; simpl; [done|].
  by rewrite Ascii.eqb_refl.
Qed.

Lemma startswith_inv p s :
  startswith p s = true -> s = p ++ drop (length p) s.
Proof.
  revert s. induction p as [|a p IH]; intros [|b s]; simpl; try done.
  intros [Hab Hps]%andb_true_iff.
  apply Ascii.eqb_eq in Hab as ->. f_equal. by apply IH.
Qed.

Lemma startswith_weaken p s t :
  startswith p s = true -> startswith p (s ++ t) = true.
Proof.
  intros H. rewrite (startswith_inv _ _ H), <- app_assoc.
  apply startswith_app.
Qed.

(** A text that a pattern starts can be read off the pattern. *)
Lemma startswith_swap p u t :
  startswith p (u ++ t) = true -> length u <= length p ->
  startswith u p = true.
Proof.
  revert p. induction u as [|b u IH]; intros p; [done|].
  destruct p as [|a p]; simpl; [lia|].
  intros [Hab Hps]%andb_true_iff Hlen.
  apply Ascii.eqb_eq in Hab as ->. rewrite Ascii.eqb_refl. simpl.
  apply IH; [done|lia].
Qed.

(** A character foreign to the pattern blocks every match across it. *)
Lemma startswith_delim p d u v :
  d ∉ p -> startswith p (u ++ d :: v) = startswith p u.
Proof.
  revert u. induction p as [|a p IH]; intros u Hd; [done|].
  apply not_elem_of_cons in Hd as [Hda Hd].
  destruct u as [|c u]; simpl.
  - destruct (Ascii.eqb_spec a d); [congruence|done].
  - by rewrite IH.
Qed.

Lemma contains_occurrences p s :
  contains p s = true <-> 0 < occurrences p s.
Proof.
  induction s as [|c s IH]; simpl.
  - destruct (startswith p []); simpl; split; (lia || done).
  - destruct (startswith p (c :: s)); simpl; [split; (lia || done)|].
    by rewrite IH.
Qed.

Lemma contains_false_occurrences p s :
  contains p s = false <-> occurrences p s = 0.
Proof.
  pose proof (contains_occurrences p s) as [H1 H2].
  destruct (contains p s), (occurrences p s) as [|n]; split; intros;
    try done; try lia.
Qed.

Lemma contains_app_l p s t : contains p s = true -> contains p (s ++ t) = true.
Proof.
  induction s as [|c s IH]; simpl.
  - rewrite orb_false_r. intros H.
    destruct p; [|done]. by destruct t.
  - intros [H|H]%orb_true_iff; apply orb_true_iff.
    + left. by apply (startswith_weaken _ (c :: s)).
    + right. by apply IH.
Qed.

Lemma contains_app_r p s t : contains p t = true -> contains p (s ++ t) = true.
Proof.
  intros H. induction s as [|c s IH]; simpl; [done|].
  rewrite IH. apply orb_true_r.
Qed.

Lemma occurrences_delim p d u v :
  p <> [] -> d ∉ p ->
  occurrences p (u ++ d :: v) = occurrences p u + occurrences p v.
Proof.
  intros Hp Hd. induction u as [|c u IH].
  - pose proof (startswith_delim p d [] v Hd) as E.
    cbn [app occurrences] in *. rewrite E.
    destruct p; [done|]. simpl. done.
  - change ((c :: u) ++ d :: v) with (c :: (u ++ d :: v)).
    cbn [occurrences]. rewrite IH.
    change (c :: u ++ d :: v) with ((c :: u) ++ d :: v).
    rewrite (startswith_delim p d (c :: u) v Hd). lia.
Qed.

(** ** The scans of [re], for a non-empty literal *)

Section Scan.

Variable p : text.
Hypothesis p_nonempty : p <> [].

Lemma drop_pattern_tail c s t :
  c :: s = p ++ t -> drop (length p - 1) s = t.
Proof.
  destruct p as [|a p']; [done|]. simpl. intros [= _ ->].
  rewrite Nat.sub_0_r. apply drop_app_length.
Qed.

Lemma sub_scan_skip template k s :
  re.sub_scan p template k s = re.sub p template (drop k s).
Proof.
  revert k. induction s as [|c s IH]; intros [|k]; try done.
  simpl. by rewrite IH.
Qed.

Lemma findall_scan_skip k s :
  re.findall_scan p k s = re.findall p (drop k s).
Proof.
  revert k. induction s as [|c s IH]; intros [|k]; try done.
  simpl. by rewrite IH.
Qed.

Lemma split_scan_skip k s :
  re.split_scan p k s = re.split p (drop k s).
Proof.
  revert k. induction s as [|c s IH]; intros [|k]; try done.
  simpl. by rewrite IH.
Qed.

(** The defining equations of the three scans: at a match the pattern is
    consumed whole, elsewhere one character is. *)

Lemma sub_match template t :
  re.sub p template (p ++ t) = re.expand template p ++ re.sub p template t.
Proof.
  unfold re.sub at 1. destruct (p ++ t) as [|c s] eqn:E.
  - by destruct p.
  - cbn [re.sub_scan]. rewrite <- E, startswith_app, sub_scan_skip.
    by rewrite (drop_pattern_tail c s t).
Qed.

Lemma sub_step template c s :
  startswith p (c :: s) = false ->
  re.sub p template (c :: s) = c :: re.sub p template s.
Proof. intros H. unfold re.sub. cbn [re.sub_scan]. by rewrite H. Qed.

Lemma findall_match t :
  re.findall p (p ++ t) = p :: re.findall p t.
Proof.
  unfold re.findall at 1. destruct (p ++ t) as [|c s] eqn:E.
  - by destruct p.
  - cbn [re.findall_scan]. rewrite <- E, startswith_app, findall_scan_skip.
    by rewrite (drop_pattern_tail c s t).
Qed.

Lemma findall_step c s :
  startswith p (c :: s) = false ->
  re.findall p (c :: s) = re.findall p s.
Proof. intros H. unfold re.findall. cbn [re.findall_scan]. by rewrite H. Qed.

Lemma split_match t :
  re.split p (p ++ t) = [] :: re.split p t.
Proof.
  unfold re.split at 1. destruct (p ++ t) as [|c s] eqn:E.
  - by destruct p.
  - cbn [re.split_scan]. rewrite <- E, startswith_app, split_scan_skip.
    by rewrite (drop_pattern_tail c s t).
Qed.

Lemma split_scan_nonempty k s : re.split_scan p k s <> [].
Proof.
  revert k. induction s as [|d s IH]; intros k; [done|].
  simpl. destruct k; [|apply IH].
  destruct (startswith p (d :: s)); [done|].
  by destruct (re.split_scan p 0 s).
Qed.

Lemma split_step c s :
  startswith p (c :: s) = false ->
  exists seg rest,
    re.split p s = seg :: rest /\ re.split p (c :: s) = (c :: seg) :: rest.
Proof.
  intros H. unfold re.split. cbn [re.split_scan]. rewrite H.
  pose proof (split_scan_nonempty 0 s) as Hne.
  destruct (re.split_scan p 0 s) as [|seg rest]; [done|]. eauto.
Qed.

(** Induction along the scan. *)
Lemma scan_ind (P : text -> Prop) :
  P [] ->
  (forall t, P t -> P (p ++ t)) ->
  (forall c s, startswith p (c :: s) = false -> P s -> P (c :: s)) ->
  forall s, P s.
Proof.
  intros Hnil Hmatch Hstep s.
  remember (length s) as n eqn:Hn. revert s Hn.
  induction n as [n IH] using lt_wf_ind. intros s ->.
  destruct s as [|c s]; [done|].
  destruct (startswith p (c :: s)) eqn:E.
  - rewrite (startswith_inv _ _ E). apply Hmatch. eapply IH; [|done].
    rewrite length_drop. destruct p; [done|]. simpl. lia.
  - apply Hstep; [done|]. eapply IH; [|done]. simpl. lia.
Qed.

Lemma join_cons sep x l : l <> [] -> join sep (x :: l) = x ++ sep ++ join sep l.
Proof. by destruct l. Qed.

Lemma join_cons_head sep c seg rest :
  join sep ((c :: seg) :: rest) = c :: join sep (seg :: rest).
Proof. by destruct rest. Qed.

Lemma join_head sep seg rest :
  exists tail, join sep (seg :: rest) = seg ++ tail.
Proof.
  destruct rest; simpl; [exists []; by rewrite app_nil_r|eauto].
Qed.

(** Splitting loses nothing: the pieces, joined by the pattern, are the
    subject. *)
Lemma join_split s : join p (re.split p s) = s.
Proof.
  induction s as [|t IH|c s Hc IH] using scan_ind.
  - done.
  - rewrite split_match, join_cons by apply split_scan_nonempty.
    by rewrite IH.
  - destruct (split_step c s Hc) as (seg & rest & E1 & E2).
    rewrite E2, join_cons_head, <- E1. by rewrite IH.
Qed.

(** Substituting is joining the same pieces by the expanded template. *)
Lemma sub_join template s :
  re.sub p template s = join (re.expand template p) (re.split p s).
Proof.
  induction s as [|t IH|c s Hc IH] using scan_ind.
  - done.
  - rewrite sub_match, split_match, join_cons by apply split_scan_nonempty.
    by rewrite IH.
  - destruct (split_step c s Hc) as (seg & rest & E1 & E2).
    rewrite sub_step, E2, join_cons_head, <- E1 by done. by rewrite IH.
Qed.

Lemma length_split s :
  length (re.split p s) = S (length (re.findall p s)).
Proof.
  induction s as [|t IH|c s Hc IH] using scan_ind.
  - done.
  - rewrite split_match, findall_match. simpl. by rewrite IH.
  - destruct (split_step c s Hc) as (seg & rest & E1 & E2).
    rewrite E2, findall_step by done. rewrite <- IH, E1. done.
Qed.

(** No piece holds the pattern. *)
Lemma split_free s :
  Forall (fun seg => occurrences p seg = 0) (re.split p s).
Proof.
  assert (startswith p [] = false) as Hnil by by destruct p.
  induction s as [|t IH|c s Hc IH] using scan_ind.
  - constructor; [|done]. simpl. by rewrite Hnil.
  - rewrite split_match. constructor; [|done]. simpl. by rewrite Hnil.
  - destruct (split_step c s Hc) as (seg & rest & E1 & E2).
    rewrite E2. rewrite E1 in IH. inversion IH as [|? ? Hseg Hrest]; subst.
    constructor; [|done]. cbn [occurrences]. rewrite Hseg.
    destruct (startswith p (c :: seg)) eqn:E; [|done].
    destruct (join_head p seg rest) as [tail Htail].
    rewrite <- (join_split s), E1, Htail in Hc.
    pose proof (startswith_weaken p (c :: seg) tail E) as Hw.
    simpl in Hw, Hc. congruence.
Qed.

(** Positions without a match do not count. *)
Lemma occurrences_drop k s :
  (forall j, j < k -> startswith p (drop j s) = false) ->
  occurrences p s = occurrences p (drop k s).
Proof.
  revert s. induction k as [|k IH]; intros s H; [done|].
  destruct s as [|c s]; [done|].
  pose proof (H 0 ltac:(lia)) as H0. cbn [drop] in H0.
  cbn [occurrences drop]. rewrite H0. simpl.
  apply IH. intros j Hj. apply (H (S j)). lia.
Qed.

Hypothesis p_unbordered : unbordered p = true.

Lemma no_overlap t j :
  0 < j < length p -> startswith p (drop j (p ++ t)) = false.
Proof.
  intros Hj. destruct (startswith p (drop j (p ++ t))) eqn:E; [|done].
  rewrite drop_app_le in E by lia.
  apply startswith_swap in E; [|rewrite length_drop; lia].
  unfold unbordered in p_unbordered.
  rewrite forallb_forall in p_unbordered.
  specialize (p_unbordered j). rewrite E in p_unbordered.
  discriminate p_unbordered. apply in_seq. lia.
Qed.

Lemma occurrences_match t :
  occurrences p (p ++ t) = S (occurrences p t).
Proof.
  destruct (p ++ t) as [|c s] eqn:E; [by destruct p|].
  cbn [occurrences]. rewrite <- E, startswith_app.
  rewrite (occurrences_drop (length p - 1) s).
  - by rewrite (drop_pattern_tail c s t).
  - intros j Hj. change (drop j s) with (drop (S j) (c :: s)).
    rewrite <- E. apply no_overlap. lia.
Qed.

(** The leftmost scan misses no occurrence of a pattern that cannot
    overlap itself. *)
Lemma findall_occurrences s :
  length (re.findall p s) = occurrences p s.
Proof.
  induction s as [|t IH|c s Hc IH] using scan_ind.
  - simpl. by destruct p.
  - rewrite findall_match, occurrences_match. simpl. by rewrite IH.
  - rewrite findall_step by done. cbn [occurrences]. by rewrite Hc.
Qed.

(** Two occurrences are at least the length of the pattern apart. *)
Lemma occurrences_apart s i j :
  startswith p (drop i s) = true -> startswith p (drop j s) = true ->
  i < j -> i + length p <= j.
Proof.
  intros Hi Hj Hij. destruct (decide (i + length p <= j)); [done|].
  apply startswith_inv in Hi.
  replace j with (i + (j - i)) in Hj by lia.
  rewrite <- drop_drop, Hi, no_overlap in Hj; [done|lia].
Qed.

End Scan.

(** ** The patterns of the script *)

Lemma import_pattern_nonempty : import_pattern <> [].
Proof. done. Qed.

Lemma promise_race_nonempty : promise_race <> [].
Proof. done. Qed.

Lemma import_pattern_unbordered : unbordered import_pattern = true.
Proof. vm_compute. reflexivity. Qed.

Lemma promise_race_unbordered : unbordered promise_race = true.
Proof. vm_compute. reflexivity. Qed.

Lemma expand_replacement :
  re.expand replacement import_pattern = import_pattern ++ inserted_line.
Proof.
  unfold re.expand, replacement, inserted_line. cbn [flat_map].
  by rewrite app_nil_r.
Qed.

Lemma inserted_line_marked : contains marker inserted_line = true.
Proof. vm_compute. reflexivity. Qed.

(** Without the marker, the new text is the old one with the line added
    after each piece but the last. *)
Lemma new_content_join c :
  contains marker c = false ->
  new_content c = join (import_pattern ++ inserted_line)
                       (re.split import_pattern c).
Proof.
  intros H. unfold new_content. rewrite H. cbn [negb].
  rewrite (sub_join _ import_pattern_nonempty), expand_replacement. done.
Qed.

Lemma new_content_marked c : contains marker c = true -> new_content c = c.
Proof. intros H. unfold new_content. by rewrite H. Qed.

Lemma new_content_no_import c :
  contains import_pattern c = false -> new_content c = c.
Proof.
  intros H. destruct (contains marker c) eqn:Hm; [by apply new_content_marked|].
  rewrite new_content_join by done.
  apply contains_false_occurrences in H.
  rewrite <- (findall_occurrences _ import_pattern_nonempty
                import_pattern_unbordered) in H.
  pose proof (length_split _ import_pattern_nonempty c) as Hlen.
  pose proof (join_split _ import_pattern_nonempty c) as Hjoin.
  rewrite H in Hlen.
  destruct (re.split import_pattern c) as [|seg [|]]; try done.
Qed.

Lemma new_content_gets_marker c :
  contains marker c = false -> contains import_pattern c = true ->
  contains marker (new_content c) = true.
Proof.
  intros Hm H. rewrite new_content_join by done.
  apply contains_occurrences in H.
  rewrite <- (findall_occurrences _ import_pattern_nonempty
                import_pattern_unbordered) in H.
  pose proof (length_split _ import_pattern_nonempty c) as Hlen.
  destruct (re.split import_pattern c) as [|s0 [|s1 rest]];
    [simpl in Hlen; lia..|].
  rewrite join_cons by done.
  apply contains_app_r, contains_app_l, contains_app_r, inserted_line_marked.
Qed.

(** The text changes exactly when the import is there and the marker is
    not. *)
Lemma new_content_changed c :
  new_content c <> c <->
  contains marker c = false /\ contains import_pattern c = true.
Proof.
  split.
  - intros H. destruct (contains marker c) eqn:Hm.
    + by rewrite new_content_marked in H.
    + destruct (contains import_pattern c) eqn:Hi; [done|].
      by rewrite new_content_no_import in H.
  - intros [Hm Hi] E.
    pose proof (new_content_gets_marker c Hm Hi) as H.
    rewrite E in H. congruence.
Qed.

Lemma new_content_idempotent c : new_content (new_content c) = new_content c.
Proof.
  destruct (contains marker c) eqn:Hm.
  - by rewrite !(new_content_marked c Hm).
  - destruct (contains import_pattern c) eqn:Hi.
    + apply new_content_marked. by apply new_content_gets_marker.
    + by rewrite !(new_content_no_import c Hi).
Qed.

(** ** Counting across the insertion *)

(** Lengthening a separator by text that cannot take part in a match
    leaves the number of occurrences alone: the separator ends with [d], and
    what is added after it starts with [e], holds no occurrence and ends
    with [d] again. *)
Lemma occurrences_join_longer q a d e b segs :
  q <> [] -> d ∉ q -> e ∉ q -> occurrences q b = 0 ->
  occurrences q (join ((a ++ [d]) ++ e :: b ++ [d]) segs)
  = occurrences q (join (a ++ [d]) segs).
Proof.
  intros Hq Hd He Hb.
  assert (occurrences q [] = 0) as Hnil by (by destruct q).
  induction segs as [|s [|s2 l] IH]; [done..|].
  rewrite !(join_cons _ s) by done.
  set (J1 := join (a ++ [d]) (s2 :: l)) in *.
  set (J2 := join ((a ++ [d]) ++ e :: b ++ [d]) (s2 :: l)) in *.
  replace (s ++ (a ++ [d]) ++ J1) with ((s ++ a) ++ d :: J1)
    by (rewrite <- !app_assoc; done).
  replace (s ++ ((a ++ [d]) ++ e :: b ++ [d]) ++ J2)
    with ((s ++ a) ++ d :: ([] ++ e :: (b ++ d :: J2))).
  2:{ rewrite <- !app_assoc. simpl. rewrite <- !app_assoc. done. }
  rewrite !occurrences_delim by done.
  rewrite IH, Hb, Hnil. lia.
Qed.

(** The count of [Promise.race] is the same before and after the
    substitution. *)
Lemma promise_race_preserved c :
  occurrences promise_race (new_content c) = occurrences promise_race c.
Proof.
  destruct (contains marker c) eqn:Hm; [by rewrite new_content_marked|].
  rewrite new_content_join by done.
  rewrite <- (join_split _ import_pattern_nonempty c) at 2.
  change import_pattern with (import_head ++ [";"%char]).
  change inserted_line with (LF :: retry_head ++ [";"%char]).
  apply occurrences_join_longer; try done.
  all: unfold promise_race, lit; cbn [list_ascii_of_string].
  all: repeat (apply not_elem_of_cons; split; [done|]); apply not_elem_of_nil.
Qed.

(** ** Counting the inserted lines *)

Lemma contains_inv p s :
  contains p s = true -> exists u v, s = u ++ p ++ v.
Proof.
  induction s as [|c s IH]; cbn [contains].
  - rewrite orb_false_r. intros H%startswith_inv. by exists [], (drop (length p) []).
  - intros [H|H]%orb_true_iff.
    + apply startswith_inv in H. by exists [], (drop (length p) (c :: s)).
    + destruct (IH H) as (u & v & ->). by exists (c :: u), v.
Qed.

(** [contains] is Python's [in]: some stretch of the subject is the
    pattern. *)
Lemma contains_spec p s :
  contains p s = true <-> exists u v, s = u ++ p ++ v.
Proof.
  split; [apply contains_inv|]. intros (u & v & ->).
  apply contains_app_r, contains_app_l.
  pose proof (startswith_app p []) as H. rewrite app_nil_r in H.
  destruct p as [|a p]; [done|]. cbn [contains]. by rewrite H.
Qed.

Lemma contains_trans m r s :
  contains m r = true -> contains r s = true -> contains m s = true.
Proof.
  intros Hm (u & v & ->)%contains_inv.
  by apply contains_app_r, contains_app_l.
Qed.

Lemma retry_import_nonempty : retry_import <> [].
Proof. done. Qed.

Lemma retry_import_unbordered : unbordered retry_import = true.
Proof. vm_compute. reflexivity. Qed.

Lemma retry_import_marked : contains marker retry_import = true.
Proof. vm_compute. reflexivity. Qed.

Lemma unmarked_no_retry_import s :
  contains marker s = false -> occurrences retry_import s = 0.
Proof.
  intros H. apply contains_false_occurrences.
  destruct (contains retry_import s) eqn:E; [|done].
  by rewrite (contains_trans _ _ _ retry_import_marked E) in H.
Qed.

Lemma contains_app_false_l p s t :
  contains p (s ++ t) = false -> contains p s = false.
Proof.
  intros H. destruct (contains p s) eqn:E; [|done].
  by rewrite (contains_app_l _ _ t E) in H.
Qed.

Lemma contains_app_false_r p s t :
  contains p (s ++ t) = false -> contains p t = false.
Proof.
  intros H. destruct (contains p t) eqn:E; [|done].
  by rewrite (contains_app_r _ s _ E) in H.
Qed.

(** In the new text of an unmarked file the [withRetry] import occurs
    once per separator, that is once per occurrence of the import line. *)
Lemma retry_import_count segs :
  contains marker (join import_pattern segs) = false ->
  occurrences retry_import (join (import_pattern ++ LF :: retry_import) segs)
  = length segs - 1.
Proof.
  induction segs as [|s [|s2 l] IH]; intros Hm.
  - done.
  - by apply unmarked_no_retry_import.
  - rewrite join_cons in Hm |- * by done.
    replace (s ++ (import_pattern ++ LF :: retry_import)
               ++ join (import_pattern ++ LF :: retry_import) (s2 :: l))
      with ((s ++ import_pattern) ++ LF :: retry_import
               ++ join (import_pattern ++ LF :: retry_import) (s2 :: l))
      by (by rewrite <- !app_assoc).
    rewrite app_assoc in Hm.
    rewrite occurrences_delim; [|done|].
    2:{ unfold retry_import, lit; cbn [list_ascii_of_string].
        repeat (apply not_elem_of_cons; split; [done|]). apply not_elem_of_nil. }
    rewrite (occurrences_match _ retry_import_nonempty retry_import_unbordered).
    rewrite IH by (by apply contains_app_false_r in Hm).
    rewrite unmarked_no_retry_import by (by apply contains_app_false_l in Hm).
    cbn [length]. lia.
Qed.

(** ** One call of [convert_file] *)

Lemma convert_file_text name c wr entries out ops :
  entries !! name = Some (TextFile c wr) ->
  convert_file name (World (Directory entries) out ops)
  = (convert_outcome c wr,
     World (Directory (if bool_decide (new_content c <> c) && wr
                       then <[name := TextFile (new_content c) true]> entries
                       else entries))
           (out ++ convert_messages name c)
           (ops ++ convert_ops name c)).
Proof.
  intros H.
  unfold convert_file, convert_messages, convert_ops, convert_outcome,
    new_content.
  unfold write_text, read_text. unfold bind, print, log_op, ret.
  cbn [disk stdout file_ops lookup_entry]. rewrite H.
  destruct (contains marker c); cbn [negb disk stdout file_ops].
  all: destruct (0 <? _)%nat; cbn [disk stdout file_ops].
  all: destruct (bool_decide _); cbn [disk stdout file_ops andb].
  all: rewrite ?H, <- ?app_assoc; try done.
  all: by destruct wr.
Qed.

Lemma convert_file_fault name d out ops :
  match lookup_entry name d with
  | Some (TextFile _ _) => False
  | _ => True
  end ->
  convert_file name (World d out ops)
  = (Raise (open_error (lookup_entry name d)),
     World d (out ++ [Converting (path_of name)]) (ops ++ [OpenRead name])).
Proof.
  intros H. unfold convert_file, read_text. unfold bind, print, log_op.
  cbn [disk stdout file_ops].
  by destruct (lookup_entry name d) as [[]|].
Qed.

Lemma alter_patch_entry name c (entries : gmap string entry) :
  entries !! name = Some (TextFile c true) ->
  <[name := TextFile (new_content c) true]> entries
  = alter patch_entry name entries.
Proof.
  intros H. apply map_eq. intros k. rewrite lookup_alter, lookup_insert.
  case_decide; subst; [by rewrite H|done].
Qed.

Lemma alter_patch_entry_same name c wr (entries : gmap string entry) :
  entries !! name = Some (TextFile c wr) ->
  new_content c = c ->
  entries = alter patch_entry name entries.
Proof.
  intros H Hc. apply map_eq. intros k. rewrite lookup_alter.
  case_decide; subst; [|done]. rewrite H. simpl. by rewrite Hc.
Qed.

(** A call that returns. *)
Lemma convert_file_ok name entries out ops :
  convertible entries name = true ->
  convert_file name (World (Directory entries) out ops)
  = (Ok (changed entries name),
     World (Directory (alter patch_entry name entries))
           (out ++ messages_of entries name)
           (ops ++ ops_of entries name)).
Proof.
  unfold convertible, changed, messages_of, ops_of.
  destruct (entries !! name) as [[c wr| | |]|] eqn:E; try done.
  intros H. rewrite (convert_file_text _ _ _ _ _ _ E). unfold convert_outcome.
  case_bool_decide as Hc; cbn [andb].
  - destruct wr; [|done]. by rewrite (alter_patch_entry _ _ _ E).
  - by rewrite <- (alter_patch_entry_same _ _ _ _ E Hc).
Qed.

(** A call that raises: the directory is as it was. *)
Lemma convert_file_fails name entries out ops :
  convertible entries name = false ->
  convert_file name (World (Directory entries) out ops)
  = (Raise (failure entries name),
     World (Directory entries)
           (out ++ messages_of entries name)
           (ops ++ ops_of entries name)).
Proof.
  unfold convertible, failure, messages_of, ops_of.
  destruct (entries !! name) as [[c wr| | |]|] eqn:E.
  - intros H. rewrite (convert_file_text _ _ _ _ _ _ E). unfold convert_outcome.
    destruct wr; [done|]. case_bool_decide; [|done]. by rewrite andb_false_r.
  - intros _. rewrite convert_file_fault; cbn [lookup_entry]; by rewrite E.
  - intros _. rewrite convert_file_fault; cbn [lookup_entry]; by rewrite E.
  - intros _. rewrite convert_file_fault; cbn [lookup_entry]; by rewrite E.
  - intros _. rewrite convert_file_fault; cbn [lookup_entry]; by rewrite E.
Qed.

Lemma convertible_spec entries name :
  convertible entries name = true
  <-> exists c wr, entries !! name = Some (TextFile c wr)
                   /\ (wr = true \/ new_content c = c).
Proof.
  unfold convertible. destruct (entries !! name) as [[c wr| | |]|].
  - split.
    + intros H. exists c, wr. split; [done|].
      destruct wr; [by left|right]. cbn [orb] in H.
      destruct (decide (new_content c = c)) as [Hc|Hc]; [done|].
      by rewrite (bool_decide_eq_true_2 _ Hc) in H.
    + intros (c' & wr' & [= <- <-] & [->|Hc]); [done|].
      rewrite (bool_decide_eq_false_2 (new_content c <> c)) by (by intros ?).
      apply orb_true_r.
  - split; [done|by intros (? & ? & ? & _)].
  - split; [done|by intros (? & ? & ? & _)].
  - split; [done|by intros (? & ? & ? & _)].
  - split; [done|by intros (? & ? & ? & _)].
Qed.

Lemma failure_exit_status entries name :
  exit_status (Raise (failure entries name)) = 1%Z.
Proof. unfold failure. by destruct (entries !! name) as [[]|]. Qed.

Lemma returns_true_changed entries name :
  returns_true (Directory entries) name = changed entries name.
Proof.
  unfold returns_true, boot.
  destruct (convertible entries name) eqn:Hc.
  - rewrite (convert_file_ok _ _ _ _ Hc). cbn [fst].
    by destruct (changed entries name).
  - rewrite (convert_file_fails _ _ _ _ Hc). cbn [fst].
    unfold convertible, changed in *.
    destruct (entries !! name) as [[c wr| | |]|]; try done.
    destruct wr; [done|]. by rewrite andb_false_r.
Qed.

(** ** The loop of [main] *)

Lemma convert_all_ok entries0 l :
  forall entries k out ops,
    NoDup l ->
    (forall n, n ∈ l -> convertible entries0 n = true) ->
    (forall n, n ∈ l -> entries !! n = entries0 !! n) ->
    convert_all l k (World (Directory entries) out ops)
    = (Ok (k + length (filter (fun n => changed entries0 n = true) l)),
       World (Directory (foldl (fun m n => alter patch_entry n m) entries l))
             (out ++ flat_map (messages_of entries0) l)
             (ops ++ flat_map (ops_of entries0) l)).
Proof.
  induction l as [|n l IH]; intros entries k out ops Hnd Hconv Hsame.
  - simpl. unfold ret. by rewrite Nat.add_0_r, !app_nil_r.
  - apply NoDup_cons in Hnd as [Hn Hnd].
    assert (entries !! n = entries0 !! n) as En by (apply Hsame; left).
    assert (convertible entries n = true) as Hc
      by (unfold convertible; rewrite En; apply Hconv; left).
    cbn [convert_all]. unfold bind at 1.
    rewrite (convert_file_ok _ _ _ _ Hc).
    rewrite IH; [|done| |].
    + assert (changed entries n = changed entries0 n) as ->
        by (unfold changed; by rewrite En).
      assert (messages_of entries n = messages_of entries0 n) as ->
        by (unfold messages_of; by rewrite En).
      assert (ops_of entries n = ops_of entries0 n) as ->
        by (unfold ops_of; by rewrite En).
      cbn [flat_map foldl]. rewrite filter_cons, <- !app_assoc.
      destruct (changed entries0 n).
      * rewrite decide_True by done. simpl. do 2 f_equal. lia.
      * rewrite decide_False by done. done.
    + intros n' Hn'. apply Hconv. by right.
    + intros n' Hn'. rewrite lookup_alter_ne by (intros ->; done).
      apply Hsame. by right.
Qed.

Lemma foldl_alter_lookup (entries : gmap string entry) l x :
  NoDup l ->
  foldl (fun m n => alter patch_entry n m) entries l !! x
  = if decide (x ∈ l) then patch_entry <$> entries !! x else entries !! x.
Proof.
  revert entries. induction l as [|n l IH]; intros entries Hnd; [done|].
  apply NoDup_cons in Hnd as [Hn Hnd]. cbn [foldl]. rewrite IH by done.
  destruct (decide (x = n)) as [->|Hne].
  - rewrite decide_False by done. rewrite decide_True by left.
    by rewrite lookup_alter_eq.
  - rewrite lookup_alter_ne by done.
    destruct (decide (x ∈ l)) as [Hx|Hx].
    + rewrite decide_True by (by right). done.
    + rewrite decide_False; [done|]. intros [?|?]%elem_of_cons; done.
Qed.

Lemma convert_all_app l1 l2 k w :
  convert_all (l1 ++ l2) k w
  = bind (convert_all l1 k) (fun k' => convert_all l2 k') w.
Proof.
  revert k w. induction l1 as [|n l1 IH]; intros k w; [done|].
  cbn [app convert_all]. unfold bind.
  destruct (convert_file n w) as [[b|e] w']; [|done].
  rewrite IH. done.
Qed.

(** The loop stops at the first entry on which [convert_file] raises; the
    files before it have been converted, the ones after it are not looked
    at. *)
Lemma convert_all_fails entries l1 n l2 k out ops :
  NoDup (l1 ++ n :: l2) ->
  (forall x, x ∈ l1 -> convertible entries x = true) ->
  convertible entries n = false ->
  convert_all (l1 ++ n :: l2) k (World (Directory entries) out ops)
  = (Raise (failure entries n),
     World (Directory (foldl (fun m x => alter patch_entry x m) entries l1))
           (out ++ flat_map (messages_of entries) l1 ++ messages_of entries n)
           (ops ++ flat_map (ops_of entries) l1 ++ ops_of entries n)).
Proof.
  intros Hnd Hconv Hn.
  apply NoDup_app in Hnd as (Hnd1 & Hdisj & _).
  rewrite convert_all_app. unfold bind.
  rewrite (convert_all_ok entries l1) by done.
  cbn [convert_all]. unfold bind.
  assert (foldl (fun m x => alter patch_entry x m) entries l1 !! n
          = entries !! n) as Hsame.
  { rewrite foldl_alter_lookup by done. rewrite decide_False; [done|].
    intros Hin. apply (Hdisj n Hin). left. }
  rewrite convert_file_fails by (unfold convertible; by rewrite Hsame).
  unfold failure, messages_of, ops_of. by rewrite Hsame, <- !app_assoc.
Qed.

Lemma first_failure entries l :
  forallb (convertible entries) l = false ->
  exists l1 n l2,
    l = l1 ++ n :: l2 /\ forallb (convertible entries) l1 = true
    /\ convertible entries n = false.
Proof.
  induction l as [|x l IH]; [done|]. cbn [forallb].
  destruct (convertible entries x) eqn:Hx; cbn [andb].
  - intros (l1 & n & l2 & -> & H1 & Hn)%IH.
    exists (x :: l1), n, l2. cbn [forallb]. by rewrite Hx, H1.
  - intros _. by exists [], x, l.
Qed.

Lemma forallb_elem_of {A} (f : A -> bool) l :
  forallb f l = true <-> forall x, x ∈ l -> f x = true.
Proof.
  rewrite forallb_forall. split; intros H x Hx; apply H; by apply list_elem_of_In.
Qed.

Lemma ts_names_NoDup entries : NoDup (ts_names entries).
Proof. apply NoDup_filter, scandir_lists. Qed.

Lemma elem_of_ts_names entries name :
  name ∈ ts_names entries <-> is_Some (entries !! name) /\ matches_ts name = true.
Proof.
  unfold ts_names. rewrite list_elem_of_filter.
  destruct (scandir_lists entries) as [_ H]. rewrite H. tauto.
Qed.

Lemma patched_lookup entries name :
  patched entries !! name
  = (fun e => if matches_ts name then patch_entry e else e) <$> entries !! name.
Proof.
  unfold patched. rewrite map_lookup_imap. by destruct (entries !! name).
Qed.

Lemma foldl_alter_patched entries :
  foldl (fun m n => alter patch_entry n m) entries (ts_names entries)
  = patched entries.
Proof.
  apply map_eq. intros x.
  rewrite foldl_alter_lookup by apply ts_names_NoDup.
  rewrite patched_lookup.
  destruct (entries !! x) as [e|] eqn:He; simpl.
  - destruct (matches_ts x) eqn:Hm.
    + rewrite decide_True; [done|].
      apply elem_of_ts_names. by rewrite He.
    + rewrite decide_False; [done|].
      rewrite elem_of_ts_names. intros [_ ?]. congruence.
  - by destruct (decide _).
Qed.


(** ** The whole run *)

Lemma main_absent :
  main (boot Absent)
  = (Raise (SystemExit 1), World Absent [ErrorNotFound services_dir] []).
Proof. reflexivity. Qed.

Lemma main_not_a_directory :
  main (boot NotADirectory)
  = (Ok tt,
     World NotADirectory [FoundFiles 0; Updated 0; NextStep; SeeExamples] []).
Proof. reflexivity. Qed.

(** Every call returns: the run completes. *)
Lemma main_ok entries :
  forallb (convertible entries) (ts_names entries) = true ->
  main (boot (Directory entries))
  = (Ok tt,
     World (Directory (patched entries))
           (FoundFiles (length (ts_names entries))
            :: flat_map (messages_of entries) (ts_names entries)
            ++ [Updated (length (filter (fun n => changed entries n = true)
                                        (ts_names entries)));
                NextStep; SeeExamples])
           (flat_map (ops_of entries) (ts_names entries))).
Proof.
  intros H. unfold main, boot.
  unfold bind, dir_exists, glob_ts, print, ret.
  cbn [disk stdout file_ops negb app].
  rewrite (convert_all_ok entries (ts_names entries));
    [|apply ts_names_NoDup|by apply forallb_elem_of|done].
  cbn [disk stdout file_ops app]. rewrite foldl_alter_patched.
  by rewrite <- !app_assoc.
Qed.

(** Some call raises: the run ends there. *)
Lemma main_fails entries :
  forallb (convertible entries) (ts_names entries) = false ->
  exists l1 n l2,
    ts_names entries = l1 ++ n :: l2
    /\ forallb (convertible entries) l1 = true
    /\ convertible entries n = false
    /\ main (boot (Directory entries))
       = (Raise (failure entries n),
          World (Directory
                   (foldl (fun m x => alter patch_entry x m) entries l1))
                (FoundFiles (length (ts_names entries))
                 :: flat_map (messages_of entries) l1
                 ++ messages_of entries n)
                (flat_map (ops_of entries) l1 ++ ops_of entries n)).
Proof.
  intros (l1 & n & l2 & E & H1 & Hn)%first_failure.
  exists l1, n, l2. repeat split; try done.
  unfold main, boot.
  unfold bind, dir_exists, glob_ts, print, ret.
  cbn [disk stdout file_ops negb app].
  pose proof (ts_names_NoDup entries) as Hnd. rewrite E in Hnd.
  set (found := length (ts_names entries)). rewrite E.
  rewrite (convert_all_fails entries l1 n l2);
    [done|done|by apply forallb_elem_of|done].
Qed.

Lemma snd_run_script d : snd (run_script d) = snd (main (boot d)).
Proof. unfold run_script. by destruct (main (boot d)). Qed.

Lemma fst_run_script d :
  fst (run_script d) = exit_status (fst (main (boot d))).
Proof. unfold run_script. by destruct (main (boot d)). Qed.

Example ex_sub :
  re.sub import_pattern replacement (lit "a" ++ import_pattern ++ lit "b")
  = lit "a" ++ import_pattern ++ LF :: retry_import ++ lit "b".
Proof. vm_compute. reflexivity. Qed.

Example ex_findall :
  length (re.findall promise_race (lit "Promise.race Promise.racePromise_race")) = 2.
Proof. reflexivity. Qed.

Example ex_unbordered :
  unbordered import_pattern = true /\ unbordered promise_race = true
  /\ unbordered (lit "abcab") = false.
Proof. vm_compute. auto. Qed.

(** * The properties of the specification *)

(** ** Insertion of the import *)

Lemma split_decompose c n :
  occurrences import_pattern c = n ->
  exists segs,
    length segs = S n
    /\ Forall (fun seg => occurrences import_pattern seg = 0) segs
    /\ c = join import_pattern segs
    /\ re.sub import_pattern replacement c
       = join (import_pattern ++ LF :: retry_import) segs.
Proof.
  intros <-. exists (re.split import_pattern c).
  rewrite (length_split _ import_pattern_nonempty).
  rewrite (findall_occurrences _ import_pattern_nonempty
             import_pattern_unbordered).
  rewrite (join_split _ import_pattern_nonempty).
  rewrite (sub_join _ import_pattern_nonempty), expand_replacement.
  repeat split. apply (split_free _ import_pattern_nonempty).
Qed.

Lemma length_join sep segs :
  length (join sep segs)
  = sum_list (map length segs) + (length segs - 1) * length sep.
Proof.
  induction segs as [|s [|s2 l] IH]; [done|simpl; lia|].
  rewrite join_cons by done. rewrite !length_app, IH.
  cbn [map sum_list length]. rewrite !Nat.sub_succ, !Nat.sub_0_r.
  unfold id. lia.
Qed.

(** What the call does once the new content is known to differ. *)
Lemma convert_file_rewrites name c wr entries out ops :
  entries !! name = Some (TextFile c wr) ->
  new_content c <> c ->
  convert_file name (World (Directory entries) out ops)
  = if wr
    then (Ok true,
          World (Directory (<[name := TextFile (new_content c) true]> entries))
                (out ++ convert_messages name c)
                (ops ++ [OpenRead name; OpenWrite name (new_content c)]))
    else (Raise PermissionError,
          World (Directory entries)
                (out ++ convert_messages name c)
                (ops ++ [OpenRead name; OpenWrite name (new_content c)])).
Proof.
  intros Hname Hc. rewrite (convert_file_text _ _ _ _ _ _ Hname).
  unfold convert_outcome, convert_ops.
  rewrite (bool_decide_eq_true_2 _ Hc). by destruct wr.
Qed.




(** C10: in a file without the marker, the substitution that
    [convert_file] performs adds the [withRetry] import after every one of
    the [N >= 1] occurrences of the import line.  The text read is [N + 1]
    pieces free of the import line, joined by it; the content the call
    opens the file for writing with is the same pieces joined by the import
    line followed by the new line.  The [withRetry] import, absent before,
    occurs [N] times in it, and it is [N] lines longer.  The file holds it
    afterwards when it can be opened for writing. *)
Theorem import_added_after_every_occurrence name c wr entries out ops N :
  entries !! name = Some (TextFile c wr) ->
  contains marker c = false ->
  occurrences import_pattern c = N ->
  1 <= N ->
  exists segs written,
    length segs = S N
    /\ Forall (fun seg => occurrences import_pattern seg = 0) segs
    /\ c = join import_pattern segs
    /\ written = join (import_pattern ++ LF :: retry_import) segs
    /\ occurrences retry_import c = 0
    /\ occurrences retry_import written = N
    /\ length written = length c + N * length (LF :: retry_import)
    /\ convert_file name (World (Directory entries) out ops)
       = if wr
         then (Ok true,
               World (Directory (<[name := TextFile written true]> entries))
                     (out ++ convert_messages name c)
                     (ops ++ [OpenRead name; OpenWrite name written]))
         else (Raise PermissionError,
               World (Directory entries)
                     (out ++ convert_messages name c)
                     (ops ++ [OpenRead name; OpenWrite name written])).
Proof.
  intros Hname Hm Hocc HN.
  destruct (split_decompose c N Hocc) as (segs & Hlen & Hfree & Hc & Hsub).
  exists segs, (join (import_pattern ++ LF :: retry_import) segs).
  assert (new_content c = join (import_pattern ++ LF :: retry_import) segs)
    as Hnew by (unfold new_content; by rewrite Hm).
  assert (new_content c <> c) as Hch.
  { apply new_content_changed. split; [done|].
    apply contains_occurrences. lia. }
  split; [done|]. split; [done|]. split; [done|]. split; [done|].
  split; [by apply unmarked_no_retry_import|].
  rewrite (convert_file_rewrites _ _ _ _ _ _ Hname Hch), Hnew.
  subst c. split; [|split; [|done]].
  - rewrite retry_import_count, Hlen by done. lia.
  - rewrite !length_join, Hlen, length_app.
    rewrite Nat.sub_succ, Nat.sub_0_r. lia.
Qed.

Lemma import_added_after_every_occurrence_witness :
  exists segs written,
    length segs = 3
    /\ Forall (fun seg => occurrences import_pattern seg = 0) segs
    /\ two_imports = join import_pattern segs
    /\ written = join (import_pattern ++ LF :: retry_import) segs
    /\ occurrences retry_import two_imports = 0
    /\ occurrences retry_import written = 2
    /\ length written = length two_imports + 2 * length (LF :: retry_import)
    /\ convert_file "api.ts"
         (World (Directory {["api.ts" := TextFile two_imports true]}) [] [])
       = (Ok true,
          World (Directory (<["api.ts" := TextFile written true]>
                              {["api.ts" := TextFile two_imports true]}))
                ([] ++ convert_messages "api.ts" two_imports)
                ([] ++ [OpenRead "api.ts"; OpenWrite "api.ts" written])).
Proof.
  apply (import_added_after_every_occurrence "api.ts" two_imports true
           {["api.ts" := TextFile two_imports true]} [] [] 2);
    vm_compute; (reflexivity || lia).
Defined.

(** ** The count of [Promise.race] *)

Lemma findall_promise_race c :
  length (re.findall promise_race (new_content c)) = occurrences promise_race c.
Proof.
  rewrite (findall_occurrences _ promise_race_nonempty
             promise_race_unbordered).
  apply promise_race_preserved.
Qed.

Lemma convert_messages_eq name c :
  convert_messages name c
  = Converting (path_of name)
    :: (if contains marker c then [] else [AddedImport]) ++ count_lines c.
Proof.
  unfold convert_messages, count_lines. rewrite findall_promise_race.
  destruct (occurrences promise_race c) as [|n]; [done|].
  by rewrite decide_False by done.
Qed.

Lemma reported_count_messages name c :
  reported_count (convert_messages name c)
  = if decide (occurrences promise_race c = 0) then None
    else Some (occurrences promise_race c).
Proof.
  rewrite convert_messages_eq. unfold count_lines.
  by destruct (contains marker c), (decide _).
Qed.

Lemma found_patterns_messages name c k :
  FoundPatterns k ∈ convert_messages name c -> k = occurrences promise_race c.
Proof.
  rewrite convert_messages_eq. unfold count_lines.
  destruct (contains marker c), (decide _); cbn [app]; intros H;
    in_explicit H; by injection H.
Qed.

(** C2, as stated, fails on a file without any [Promise.race]: the call
    reports no count at all, not the count zero. *)
Lemma reported_count_counterexample :
  occurrences promise_race (lit "export const x = 1;") = 0
  /\ ~ reported_count
        (printed_by "api.ts"
           (Directory
              {["api.ts" := TextFile (lit "export const x = 1;") true]}))
      = Some (occurrences promise_race (lit "export const x = 1;")).
Proof. split; [reflexivity|]. vm_compute. discriminate. Qed.

(** C2, amended: the count [convert_file] computes is the exact number of
    occurrences of [Promise.race] in the content of the file, which is the
    same before and after the import is added, and any two occurrences are
    disjoint.  The call reports the count only when it is positive; at
    zero it prints no count.  The content left in the file is the result of
    the import substitution alone, or the old content when the file cannot
    be opened for writing; the count has no part in it. *)
Theorem convert_file_counts_promise_race name c wr entries out ops :
  entries !! name = Some (TextFile c wr) ->
  exists msgs w',
    convert_file name (World (Directory entries) out ops)
    = (if bool_decide (new_content c <> c)
       then if wr then Ok true else Raise PermissionError
       else Ok false, w')
    /\ stdout w' = out ++ msgs
    /\ length (re.findall promise_race (new_content c))
       = occurrences promise_race c
    /\ reported_count msgs
       = (if decide (occurrences promise_race c = 0) then None
          else Some (occurrences promise_race c))
    /\ (forall k, FoundPatterns k ∈ msgs -> k = occurrences promise_race c)
    /\ (forall i j,
          startswith promise_race (drop i c) = true ->
          startswith promise_race (drop j c) = true ->
          i < j -> i + length promise_race <= j)
    /\ lookup_entry name (disk w')
       = Some (TextFile (if wr then new_content c else c) wr).
Proof.
  intros Hname. eexists (convert_messages name c), _.
  split; [apply (convert_file_text _ _ _ _ _ _ Hname)|].
  cbn [stdout disk lookup_entry].
  split; [done|]. split; [apply findall_promise_race|].
  split; [apply reported_count_messages|].
  split; [apply found_patterns_messages|].
  split; [apply (occurrences_apart _ promise_race_unbordered)|].
  case_bool_decide as Hc; destruct wr; cbn [andb];
    rewrite ?lookup_insert_eq, ?Hname, ?Hc; done.
Qed.

Lemma convert_file_counts_promise_race_witness :
  exists msgs w',
    convert_file "api.ts"
      (World (Directory
                {["api.ts" :=
                    TextFile (lit "await Promise.race([a, b]);") true]})
             [] [])
    = (if bool_decide (new_content (lit "await Promise.race([a, b]);")
                       <> lit "await Promise.race([a, b]);")
       then Ok true else Ok false, w')
    /\ stdout w' = [] ++ msgs
    /\ length (re.findall promise_race
                 (new_content (lit "await Promise.race([a, b]);")))
       = occurrences promise_race (lit "await Promise.race([a, b]);")
    /\ reported_count msgs
       = (if decide (occurrences promise_race
                       (lit "await Promise.race([a, b]);") = 0)
          then None
          else Some (occurrences promise_race
                       (lit "await Promise.race([a, b]);")))
    /\ (forall k, FoundPatterns k ∈ msgs ->
                  k = occurrences promise_race
                        (lit "await Promise.race([a, b]);"))
    /\ (forall i j,
          startswith promise_race
            (drop i (lit "await Promise.race([a, b]);")) = true ->
          startswith promise_race
            (drop j (lit "await Promise.race([a, b]);")) = true ->
          i < j -> i + length promise_race <= j)
    /\ lookup_entry "api.ts" (disk w')
       = Some (TextFile (new_content (lit "await Promise.race([a, b]);"))
                        true).
Proof.
  apply (convert_file_counts_promise_race "api.ts" _ true).
  vm_compute. reflexivity.
Defined.

(** ** Writes *)

Lemma convert_file_unchanged name c wr entries out ops :
  entries !! name = Some (TextFile c wr) ->
  new_content c = c ->
  convert_file name (World (Directory entries) out ops)
  = (Ok false,
     World (Directory entries) (out ++ convert_messages name c)
           (ops ++ [OpenRead name])).
Proof.
  intros Hname Hc. rewrite (convert_file_text _ _ _ _ _ _ Hname).
  unfold convert_ops, convert_outcome.
  rewrite bool_decide_eq_false_2; [done|]. by intros H.
Qed.

Lemma updated_not_in_messages entries l k :
  Updated k ∉ flat_map (messages_of entries) l.
Proof.
  rewrite list_elem_of_In, in_flat_map. intros (n & _ & H).
  apply list_elem_of_In in H. unfold messages_of in H.
  destruct (entries !! n) as [[c wr| | |]|]; try by in_explicit H.
  rewrite convert_messages_eq in H. unfold count_lines in H.
  destruct (contains marker c), (decide _); cbn [app] in H; in_explicit H.
Qed.

Lemma updated_not_in_call entries n k : Updated k ∉ messages_of entries n.
Proof.
  intros H. apply (updated_not_in_messages entries [n] k).
  cbn [flat_map]. by rewrite app_nil_r.
Qed.

(** Whatever total [main] prints is the number of matched files for which
    [convert_file] returns [True]. *)
Lemma main_updated_total entries total :
  Updated total ∈ stdout (snd (main (boot (Directory entries)))) ->
  total = length (filter (fun n => returns_true (Directory entries) n = true)
                         (ts_names entries)).
Proof.
  rewrite (list_filter_iff _ (fun n => changed entries n = true))
    by (intros n; by rewrite returns_true_changed).
  destruct (forallb (convertible entries) (ts_names entries)) eqn:Hr.
  - rewrite (main_ok _ Hr). cbn [snd stdout].
    rewrite elem_of_cons, elem_of_app. intros [?|[H|H]]; [done| |].
    + by apply updated_not_in_messages in H.
    + in_explicit H. by injection H.
  - destruct (main_fails _ Hr) as (l1 & n & l2 & _ & _ & _ & ->).
    cbn [snd stdout].
    rewrite elem_of_cons, !elem_of_app. intros [?|[H|H]]; [done| |].
    + by apply updated_not_in_messages in H.
    + by apply updated_not_in_call in H.
Qed.

(** C3: when the content [convert_file] computes equals the content it
    read, the call opens the file for reading only, leaves the disk as it
    was and returns [False]; the loop of [main] passes its counter on
    unchanged, and the total that [main] prints counts the files for which
    [convert_file] returns [True], which this file is not.  Read backwards:
    a write occurs only when the content changed. *)
Theorem unchanged_file_not_written name c wr entries out ops rest k :
  entries !! name = Some (TextFile c wr) ->
  new_content c = c ->
  convert_file name (World (Directory entries) out ops)
  = (Ok false,
     World (Directory entries) (out ++ convert_messages name c)
           (ops ++ [OpenRead name]))
  /\ has_write
       (file_ops (snd (convert_file name (World (Directory entries) [] []))))
     = false
  /\ convert_all (name :: rest) k (World (Directory entries) out ops)
     = convert_all rest k
         (World (Directory entries) (out ++ convert_messages name c)
                (ops ++ [OpenRead name]))
  /\ returns_true (Directory entries) name = false
  /\ forall total,
       Updated total ∈ stdout (snd (main (boot (Directory entries)))) ->
       total = length (filter (fun n => returns_true (Directory entries) n = true)
                              (ts_names entries)).
Proof.
  intros Hname Hc.
  split; [by apply (convert_file_unchanged _ _ wr)|].
  split; [by rewrite (convert_file_unchanged _ _ _ _ _ _ Hname Hc)|].
  split.
  { cbn [convert_all]. unfold bind at 1.
    by rewrite (convert_file_unchanged _ _ _ _ _ _ Hname Hc). }
  split; [|apply main_updated_total].
  unfold returns_true, boot.
  by rewrite (convert_file_unchanged _ _ _ _ _ _ Hname Hc).
Qed.

(** C4: a file that already holds the marker [withRetry] keeps its whole
    content, import section included: the call computes the same text,
    opens the file for reading only, prints no import message and returns
    [False]. *)
Theorem marked_file_untouched name c wr entries out ops :
  entries !! name = Some (TextFile c wr) ->
  contains marker c = true ->
  new_content c = c
  /\ convert_file name (World (Directory entries) out ops)
     = (Ok false,
        World (Directory entries)
              (out ++ Converting (path_of name) :: count_lines c)
              (ops ++ [OpenRead name])).
Proof.
  intros Hname Hm. pose proof (new_content_marked c Hm) as Hc.
  split; [done|].
  rewrite (convert_file_unchanged _ _ _ _ _ _ Hname Hc), convert_messages_eq.
  by rewrite Hm.
Qed.

Lemma marked_file_untouched_witness :
  new_content (retry_import ++ LF :: lit "Promise.race([p, t]);")
  = retry_import ++ LF :: lit "Promise.race([p, t]);"
  /\ convert_file "stories.ts"
       (World (Directory
                 {["stories.ts" := TextFile
                     (retry_import ++ LF :: lit "Promise.race([p, t]);")
                     true]})
              [] [])
     = (Ok false,
        World (Directory
                 {["stories.ts" := TextFile
                     (retry_import ++ LF :: lit "Promise.race([p, t]);")
                     true]})
              ([] ++ Converting (path_of "stories.ts")
                  :: count_lines
                       (retry_import ++ LF :: lit "Promise.race([p, t]);"))
              ([] ++ [OpenRead "stories.ts"])).
Proof.
  apply (marked_file_untouched _ _ true); vm_compute; reflexivity.
Defined.

(** C9: a file with neither the marker nor the import line keeps its
    content: nothing is written and the call returns [False], although the
    line [✓ Added withRetry import] is printed. *)
Theorem no_import_line_still_announced name c wr entries out ops :
  entries !! name = Some (TextFile c wr) ->
  contains marker c = false ->
  contains import_pattern c = false ->
  new_content c = c
  /\ convert_file name (World (Directory entries) out ops)
     = (Ok false,
        World (Directory entries)
              (out ++ Converting (path_of name) :: AddedImport
                   :: count_lines c)
              (ops ++ [OpenRead name]))
  /\ render AddedImport = "  ✓ Added withRetry import".
Proof.
  intros Hname Hm Hi. pose proof (new_content_no_import c Hi) as Hc.
  split; [done|]. split; [|done].
  rewrite (convert_file_unchanged _ _ _ _ _ _ Hname Hc), convert_messages_eq.
  by rewrite Hm.
Qed.

Lemma no_import_line_still_announced_witness :
  new_content (lit "export const n = 1;") = lit "export const n = 1;"
  /\ convert_file "util.ts"
       (World (Directory
                 {["util.ts" := TextFile (lit "export const n = 1;") true]})
              [] [])
     = (Ok false,
        World (Directory
                 {["util.ts" := TextFile (lit "export const n = 1;") true]})
              ([] ++ Converting (path_of "util.ts") :: AddedImport
                  :: count_lines (lit "export const n = 1;"))
              ([] ++ [OpenRead "util.ts"]))
  /\ render AddedImport = "  ✓ Added withRetry import".
Proof.
  apply (no_import_line_still_announced _ _ true); vm_compute; reflexivity.
Defined.

(** C8: the content transformation of [convert_file] is idempotent, for
    every content [C]; and a second call on a file that a first call has
    processed finds the processed content, opens the file for reading only
    and returns [False].  A file that the first call could not open for
    writing is not processed: it is as it was, and the second call ends as
    the first did. *)
Theorem convert_file_idempotent (C : text) name c wr entries out ops :
  entries !! name = Some (TextFile c wr) ->
  new_content (new_content C) = new_content C
  /\ exists w1,
       snd (convert_file name (World (Directory entries) out ops)) = w1
       /\ if wr || bool_decide (new_content c = c)
          then
            lookup_entry name (disk w1) = Some (TextFile (new_content c) wr)
            /\ convert_file name w1
               = (Ok false,
                  World (disk w1)
                        (stdout w1 ++ convert_messages name (new_content c))
                        (file_ops w1 ++ [OpenRead name]))
          else
            lookup_entry name (disk w1) = Some (TextFile c wr)
            /\ convert_file name w1
               = (Raise PermissionError,
                  World (disk w1)
                        (stdout w1 ++ convert_messages name c)
                        (file_ops w1
                           ++ [OpenRead name;
                               OpenWrite name (new_content c)])).
Proof.
  intros Hname. split; [apply new_content_idempotent|].
  rewrite (convert_file_text _ _ _ _ _ _ Hname). eexists. split; [done|].
  cbn [snd disk stdout file_ops lookup_entry].
  destruct (decide (new_content c = c)) as [Hc|Hc].
  - rewrite (bool_decide_eq_true_2 _ Hc).
    rewrite (bool_decide_eq_false_2 (new_content c <> c)) by (by intros ?).
    rewrite orb_true_r. cbn [andb]. split; [by rewrite Hname, Hc|].
    rewrite Hc. by apply (convert_file_unchanged _ _ wr).
  - rewrite (bool_decide_eq_false_2 _ Hc).
    rewrite (bool_decide_eq_true_2 (new_content c <> c)) by done.
    rewrite orb_false_r. cbn [andb]. destruct wr.
    + rewrite lookup_insert_eq. split; [done|].
      apply (convert_file_unchanged _ _ true);
        [by rewrite lookup_insert_eq|apply new_content_idempotent].
    + split; [done|]. by rewrite (convert_file_rewrites _ _ _ _ _ _ Hname Hc).
Qed.

Lemma convert_file_idempotent_witness :
  new_content (new_content two_imports) = new_content two_imports
  /\ exists w1,
       snd (convert_file "api.ts"
              (World (Directory
                        {["api.ts" := TextFile (import_pattern ++ [LF]) true]})
                     [] [])) = w1
       /\ lookup_entry "api.ts" (disk w1)
          = Some (TextFile (new_content (import_pattern ++ [LF])) true)
       /\ convert_file "api.ts" w1
          = (Ok false,
             World (disk w1)
                   (stdout w1 ++ convert_messages "api.ts"
                              (new_content (import_pattern ++ [LF])))
                   (file_ops w1 ++ [OpenRead "api.ts"])).
Proof.
  apply (convert_file_idempotent two_imports "api.ts"
           (import_pattern ++ [LF]) true).
  vm_compute. reflexivity.
Defined.

(** ** The batch *)

Lemma convertible_from_text entries :
  (forall name e,
     entries !! name = Some e -> matches_ts name = true ->
     exists c wr, e = TextFile c wr /\ (wr = true \/ new_content c = c)) ->
  forallb (convertible entries) (ts_names entries) = true.
Proof.
  intros Htext. apply forallb_elem_of. intros n Hn.
  apply elem_of_ts_names in Hn as [[e He] Hm].
  destruct (Htext n e He Hm) as (c & wr & -> & Hw).
  unfold convertible. rewrite He.
  destruct Hw as [->|Hc]; [done|].
  rewrite (bool_decide_eq_false_2 (new_content c <> c)) by (by intros ?).
  apply orb_true_r.
Qed.

Lemma printed_by_messages entries n :
  printed_by n (Directory entries) = messages_of entries n.
Proof.
  unfold printed_by, boot. destruct (convertible entries n) eqn:Hc.
  - by rewrite (convert_file_ok _ _ _ _ Hc).
  - by rewrite (convert_file_fails _ _ _ _ Hc).
Qed.


Lemma status_zero_convertible entries :
  fst (run_script (Directory entries)) = 0%Z ->
  forallb (convertible entries) (ts_names entries) = true.
Proof.
  rewrite fst_run_script.
  destruct (forallb (convertible entries) (ts_names entries)) eqn:Hr; [done|].
  destruct (main_fails _ Hr) as (l1 & n & l2 & _ & _ & _ & ->).
  cbn [fst]. by rewrite failure_exit_status.
Qed.


(** C7, amended: when the directory exists and no entry of it, file or
    directory, has a name that matches [*.ts], [main] reports zero files
    found and zero files updated, opens no file, leaves the directory as it
    is and ends with status 0. *)
Theorem main_nothing_to_do entries :
  (forall name, is_Some (entries !! name) -> matches_ts name = false) ->
  run_script (Directory entries)
  = (0%Z,
     World (Directory entries)
           [FoundFiles 0; Updated 0; NextStep; SeeExamples] []).
Proof.
  intros H.
  assert (ts_names entries = []) as E.
  { destruct (ts_names entries) as [|n l] eqn:E; [done|].
    assert (n ∈ ts_names entries) as Hn by (rewrite E; left).
    apply elem_of_ts_names in Hn as [Hs Hm]. rewrite (H n Hs) in Hm. done. }
  unfold run_script, main, boot.
  unfold bind, dir_exists, glob_ts, print, ret.
  cbn [disk stdout file_ops negb app]. rewrite E. reflexivity.
Qed.

Lemma flat_map_agree {A B} (f g : A -> list B) l :
  (forall x, x ∈ l -> f x = g x) -> flat_map f l = flat_map g l.
Proof.
  induction l as [|a l IH]; intros H; [done|]. cbn [flat_map].
  rewrite (H a) by left. rewrite IH; [done|]. intros x Hx. apply H. by right.
Qed.


(** * Further properties of the script *)

(** ** One call *)

(** X1: a call of [convert_file] touches at most the file it is given:
    every other entry of the directory is as before, the file itself is
    there afterwards exactly if it was there before, and what had been
    printed stays printed. *)
Theorem convert_file_frame name other d out ops :
  other <> name ->
  lookup_entry other (disk (snd (convert_file name (World d out ops))))
  = lookup_entry other d
  /\ (is_Some (lookup_entry name
                 (disk (snd (convert_file name (World d out ops)))))
      <-> is_Some (lookup_entry name d))
  /\ exists msgs,
       stdout (snd (convert_file name (World d out ops))) = out ++ msgs.
Proof.
  intros Hne.
  destruct (lookup_entry name d) as [[c wr| | |]|] eqn:E.
  - destruct d as [| |entries]; try done. cbn [lookup_entry] in E.
    rewrite (convert_file_text _ _ _ _ _ _ E).
    cbn [snd disk stdout lookup_entry].
    split; [|split; [|by eexists]].
    + destruct (_ && _); [by rewrite lookup_insert_ne|done].
    + destruct (_ && _); rewrite ?lookup_insert_eq, ?E;
        split; intros _; by eexists.
  - rewrite convert_file_fault by (by rewrite E).
    cbn [snd disk stdout]. rewrite E. split; [done|]. split; [done|by eexists].
  - rewrite convert_file_fault by (by rewrite E).
    cbn [snd disk stdout]. rewrite E. split; [done|]. split; [done|by eexists].
  - rewrite convert_file_fault by (by rewrite E).
    cbn [snd disk stdout]. rewrite E. split; [done|]. split; [done|by eexists].
  - rewrite convert_file_fault by (by rewrite E).
    cbn [snd disk stdout]. rewrite E. split; [done|]. split; [done|by eexists].
Qed.

Lemma convert_file_frame_witness :
  lookup_entry "util.ts"
    (disk (snd (convert_file "api.ts" (World (Directory two_files) [] []))))
  = lookup_entry "util.ts" (Directory two_files)
  /\ (is_Some (lookup_entry "api.ts"
                 (disk (snd (convert_file "api.ts"
                               (World (Directory two_files) [] [])))))
      <-> is_Some (lookup_entry "api.ts" (Directory two_files)))
  /\ exists msgs,
       stdout (snd (convert_file "api.ts" (World (Directory two_files) [] [])))
       = [] ++ msgs.
Proof. apply convert_file_frame. discriminate. Defined.








(** ** The batch *)


(** X5: there is no rollback.  When [convert_file] raises for some entry
    that matches [*.ts] (it is not a readable text file, or its content
    changes and it cannot be opened for writing), the run ends with status
    1 at the first such entry of the listing: the files listed before it
    have been converted and stay converted, the entries after it have not
    been opened, and no total is printed.  This holds for every order of
    the listing. *)
Theorem main_stops_at_first_failure entries bad :
  is_Some (entries !! bad) ->
  matches_ts bad = true ->
  convertible entries bad = false ->
  exists l1 n l2 entries',
    ts_names entries = l1 ++ n :: l2
    /\ (forall x, x ∈ l1 -> convertible entries x = true)
    /\ convertible entries n = false
    /\ run_script (Directory entries)
       = (1%Z,
          World (Directory entries')
                (FoundFiles (length (ts_names entries))
                 :: flat_map (fun x => printed_by x (Directory entries)) l1
                 ++ printed_by n (Directory entries))
                (flat_map (ops_of entries) l1 ++ ops_of entries n))
    /\ (forall total, Updated total ∉ stdout (snd (run_script (Directory entries))))
    /\ forall x,
         entries' !! x
         = if decide (x ∈ l1) then patch_entry <$> entries !! x
           else entries !! x.
Proof.
  intros Hsome Hm Hbad.
  assert (forallb (convertible entries) (ts_names entries) = false) as Hr.
  { destruct (forallb (convertible entries) (ts_names entries)) eqn:Hr; [|done].
    rewrite forallb_elem_of in Hr. rewrite <- Hbad. symmetry. apply Hr.
    by apply elem_of_ts_names. }
  destruct (main_fails _ Hr) as (l1 & n & l2 & E & H1 & Hn & Hmain).
  exists l1, n, l2, (foldl (fun m x => alter patch_entry x m) entries l1).
  split; [done|]. split; [by apply forallb_elem_of|].
  split; [done|].
  assert (run_script (Directory entries)
          = (1%Z,
             World (Directory
                      (foldl (fun m x => alter patch_entry x m) entries l1))
                   (FoundFiles (length (ts_names entries))
                    :: flat_map (messages_of entries) l1
                    ++ messages_of entries n)
                   (flat_map (ops_of entries) l1 ++ ops_of entries n)))
    as Hrun.
  { unfold run_script. rewrite Hmain. by rewrite failure_exit_status. }
  split; [|split].
  - rewrite Hrun.
    rewrite (flat_map_agree (fun x => printed_by x (Directory entries))
               (messages_of entries))
      by (intros x _; apply printed_by_messages).
    by rewrite printed_by_messages.
  - intros total. rewrite Hrun. cbn [snd stdout].
    rewrite elem_of_cons, elem_of_app. intros [?|[H|H]]; [done| |].
    + by apply updated_not_in_messages in H.
    + by apply updated_not_in_call in H.
  - intros x. apply foldl_alter_lookup.
    pose proof (ts_names_NoDup entries) as Hnd. rewrite E in Hnd.
    by apply NoDup_app in Hnd as [? _].
Qed.

Lemma patch_entry_idempotent e : patch_entry (patch_entry e) = patch_entry e.
Proof. destruct e; [|done..]. simpl. by rewrite new_content_idempotent. Qed.

Lemma patched_idempotent entries : patched (patched entries) = patched entries.
Proof.
  apply map_eq. intros x. rewrite !patched_lookup.
  destruct (entries !! x) as [e|]; [|done]. simpl.
  destruct (matches_ts x); [|done]. by rewrite patch_entry_idempotent.
Qed.

(** After a run that returned from every call, every matching entry is a
    text file that needs no change. *)
Lemma patched_settled entries :
  forallb (convertible entries) (ts_names entries) = true ->
  forall name e,
    patched entries !! name = Some e -> matches_ts name = true ->
    exists c wr, e = TextFile c wr /\ new_content c = c.
Proof.
  intros Hr name e He Hm. rewrite patched_lookup, Hm in He.
  destruct (entries !! name) as [e0|] eqn:E0; [|done].
  rewrite forallb_elem_of in Hr.
  assert (convertible entries name = true) as Hc
    by (apply Hr, elem_of_ts_names; by rewrite E0).
  unfold convertible in Hc. rewrite E0 in Hc.
  destruct e0 as [c0 wr0| | |]; try done. injection He as <-.
  exists (new_content c0), wr0. split; [done|apply new_content_idempotent].
Qed.

Lemma filter_none {A} (P : A -> Prop) `{!forall x, Decision (P x)} l :
  (forall x, x ∈ l -> ~ P x) -> filter P l = [].
Proof.
  induction l as [|a l IH]; intros Hl; [done|].
  rewrite filter_cons, decide_False by (apply Hl; left).
  apply IH. intros x Hx. apply Hl. by right.
Qed.

Lemma has_write_flat_map (f : string -> list file_op) l :
  (forall x, x ∈ l -> has_write (f x) = false) ->
  has_write (flat_map f l) = false.
Proof.
  induction l as [|a l IH]; intros H; [done|].
  cbn [flat_map]. unfold has_write in *. rewrite existsb_app.
  rewrite (H a) by left. apply IH. intros x Hx. apply H. by right.
Qed.

(** X6: the batch is idempotent.  On the directory that a run with status
    0 leaves behind, a second run ends with status 0, reports zero files
    updated, opens no file for writing and leaves the directory as it is,
    whatever the order of its listing. *)
Theorem second_run_changes_nothing entries :
  fst (run_script (Directory entries)) = 0%Z ->
  exists entries1 out2 ops2,
    disk (snd (run_script (Directory entries))) = Directory entries1
    /\ run_script (Directory entries1)
       = (0%Z, World (Directory entries1) out2 ops2)
    /\ Updated 0 ∈ out2
    /\ has_write ops2 = false.
Proof.
  intros Hok. pose proof (status_zero_convertible _ Hok) as Hr.
  pose proof (patched_settled _ Hr) as Hset.
  assert (forallb (convertible (patched entries))
                  (ts_names (patched entries)) = true) as Hr1.
  { apply convertible_from_text. intros name e He Hm.
    destruct (Hset name e He Hm) as (c & wr & -> & Hc).
    exists c, wr. split; [done|by right]. }
  eexists (patched entries), _, _.
  rewrite snd_run_script, (main_ok _ Hr). split; [done|].
  unfold run_script. rewrite (main_ok _ Hr1).
  rewrite patched_idempotent. split; [done|].
  assert (forall n, n ∈ ts_names (patched entries) ->
                    patched entries !! n = None
                    \/ exists c wr, patched entries !! n = Some (TextFile c wr)
                                    /\ new_content c = c) as Hsame.
  { intros n [[e He] Hm]%elem_of_ts_names.
    destruct (Hset n e He Hm) as (c & wr & -> & Hc). right. by exists c, wr. }
  split.
  - rewrite filter_none.
    + rewrite elem_of_cons, elem_of_app. right. right. left.
    + intros x Hx. unfold changed.
      destruct (Hsame x Hx) as [->|(c & wr & -> & Hc)]; [done|].
      by rewrite (bool_decide_eq_false_2 (new_content c <> c)) by (by intros ?).
  - apply has_write_flat_map. intros n Hn. unfold ops_of.
    destruct (Hsame n Hn) as [->|(c & wr & -> & Hc)]; [done|].
    unfold convert_ops.
    by rewrite (bool_decide_eq_false_2 (new_content c <> c)) by (by intros ?).
Qed.

Lemma ops_of_spec entries n op :
  op ∈ ops_of entries n ->
  op_name op = n
  /\ match op with
     | OpenRead _ => True
     | OpenWrite _ content =>
         exists c wr, entries !! n = Some (TextFile c wr)
                      /\ content = new_content c /\ content <> c
     end.
Proof.
  unfold ops_of. destruct (entries !! n) as [[c wr| | |]|];
    try (intros H; in_explicit H; by subst op).
  unfold convert_ops. case_bool_decide as Hc; intros H; in_explicit H.
  - by subst op.
  - subst op. split; [done|]. by exists c, wr.
  - by subst op.
Qed.

Lemma elem_of_flat_map {A B} (f : A -> list B) l y :
  y ∈ flat_map f l <-> exists x, x ∈ l /\ y ∈ f x.
Proof.
  rewrite list_elem_of_In, in_flat_map. split.
  - intros (x & Hx & Hy). exists x. by rewrite !list_elem_of_In.
  - intros (x & Hx & Hy). exists x. by rewrite <- !list_elem_of_In.
Qed.

(** X7: the run opens nothing but the entries of [services/supabase] that
    match [*.ts].  Every [open] of a run names such an entry, and every
    [open] for writing names a text file whose content changes and carries
    exactly the new content of that file. *)
Theorem main_opens_only_ts_files d op :
  op ∈ file_ops (snd (run_script d)) ->
  exists entries,
    d = Directory entries
    /\ matches_ts (op_name op) = true
    /\ is_Some (entries !! op_name op)
    /\ match op with
       | OpenRead _ => True
       | OpenWrite name content =>
           exists c wr, entries !! name = Some (TextFile c wr)
                        /\ content = new_content c /\ content <> c
       end.
Proof.
  rewrite snd_run_script. destruct d as [| |entries].
  - rewrite main_absent. by intros H%elem_of_nil.
  - rewrite main_not_a_directory. by intros H%elem_of_nil.
  - intros Hop. exists entries. split; [done|].
    assert (exists n, n ∈ ts_names entries /\ op ∈ ops_of entries n)
      as (n & Hn & Hop').
    { destruct (forallb (convertible entries) (ts_names entries)) eqn:Hr.
      - rewrite (main_ok _ Hr) in Hop. cbn [snd file_ops] in Hop.
        by apply elem_of_flat_map in Hop.
      - destruct (main_fails _ Hr) as (l1 & n & l2 & E & _ & _ & Hmain).
        rewrite Hmain in Hop. cbn [snd file_ops] in Hop. rewrite E.
        apply elem_of_app in Hop as [Hop|Hop].
        + apply elem_of_flat_map in Hop as (x & Hx & Hop).
          exists x. split; [|done]. apply elem_of_app. by left.
        + exists n. split; [|done]. apply elem_of_app. right. left. }
    apply elem_of_ts_names in Hn as [Hsome Hm].
    destruct (ops_of_spec _ _ _ Hop') as [<- Hw].
    split; [done|]. split; [done|].
    destruct op as [name|name content]; cbn [op_name] in *; done.
Qed.


Lemma found_not_in_messages entries l n :
  FoundFiles n ∉ flat_map (messages_of entries) l.
Proof.
  rewrite elem_of_flat_map. intros (x & _ & H). unfold messages_of in H.
  destruct (entries !! x) as [[c wr| | |]|]; try by in_explicit H.
  rewrite convert_messages_eq in H. unfold count_lines in H.
  destruct (contains marker c), (decide _); cbn [app] in H; in_explicit H.
Qed.

(** X9: the total is the mark of success.  The line with the number of
    updated files is printed exactly when the process ends with status 0,
    whatever [services/supabase] is. *)
Theorem summary_iff_success d :
  (exists total, Updated total ∈ stdout (snd (run_script d)))
  <-> fst (run_script d) = 0%Z.
Proof.
  rewrite snd_run_script, fst_run_script. destruct d as [| |entries].
  - rewrite main_absent. split; [|done]. intros [total H]. in_explicit H.
  - rewrite main_not_a_directory. split; [done|]. intros _. exists 0.
    cbn [snd stdout]. right. left.
  - destruct (forallb (convertible entries) (ts_names entries)) eqn:Hr.
    + rewrite (main_ok _ Hr). split; [done|]. intros _.
      eexists. cbn [snd stdout]. right. apply elem_of_app. right. left.
    + destruct (main_fails _ Hr) as (l1 & n & l2 & _ & _ & _ & ->).
      cbn [fst snd stdout]. rewrite failure_exit_status.
      split; [|done]. intros [total H].
      apply elem_of_cons in H as [H|H]; [done|].
      apply elem_of_app in H as [H|H].
      * by apply updated_not_in_messages in H.
      * by apply updated_not_in_call in H.
Qed.

(** X10: the run never reports more files updated than files found. *)
Theorem updated_at_most_found d found total :
  FoundFiles found ∈ stdout (snd (run_script d)) ->
  Updated total ∈ stdout (snd (run_script d)) ->
  total <= found.
Proof.
  rewrite snd_run_script. destruct d as [| |entries].
  - rewrite main_absent. intros H. in_explicit H.
  - rewrite main_not_a_directory. intros H1 H2.
    in_explicit H1. in_explicit H2. injection H2 as ->. lia.
  - destruct (forallb (convertible entries) (ts_names entries)) eqn:Hr.
    + rewrite (main_ok _ Hr). cbn [snd stdout]. intros H1 H2.
      apply elem_of_cons in H2 as [H2|H2]; [done|].
      apply elem_of_app in H2 as [H2|H2];
        [by apply updated_not_in_messages in H2|].
      in_explicit H2. injection H2 as ->.
      apply elem_of_cons in H1 as [H1|H1].
      * injection H1 as ->. apply length_filter.
      * apply elem_of_app in H1 as [H1|H1];
          [by apply found_not_in_messages in H1|]. in_explicit H1.
    + destruct (main_fails _ Hr) as (l1 & n & l2 & _ & _ & _ & ->).
      cbn [snd stdout]. intros _ H2.
      apply elem_of_cons in H2 as [H2|H2]; [done|].
      apply elem_of_app in H2 as [H2|H2];
        [by apply updated_not_in_messages in H2|].
      by apply updated_not_in_call in H2.
Qed.

End Listing.

(** * Runs for a given listing *)

Lemma key_order_lists entries :
  NoDup (key_order entries)
  /\ forall name, name ∈ key_order entries <-> is_Some (entries !! name).
Proof.
  unfold key_order. split; [apply NoDup_fst_map_to_list|].
  intros name. rewrite list_elem_of_fmap. split.
  - intros ([k e] & -> & Hin). apply elem_of_map_to_list in Hin. by exists e.
  - intros [e He]. exists (name, e). split; [done|].
    by apply elem_of_map_to_list.
Qed.

Lemma reverse_key_order_lists entries :
  NoDup (reverse_key_order entries)
  /\ forall name,
       name ∈ reverse_key_order entries <-> is_Some (entries !! name).
Proof.
  unfold reverse_key_order. destruct (key_order_lists entries) as [Hnd H].
  split; [by rewrite reverse_Permutation|]. intros name.
  by rewrite elem_of_reverse.
Qed.

Lemma unchanged_file_not_written_witness :
  convert_file "api.ts"
    (World (Directory {["api.ts" := TextFile (lit "export {};") false]}) [] [])
  = (Ok false,
     World (Directory {["api.ts" := TextFile (lit "export {};") false]})
           ([] ++ convert_messages "api.ts" (lit "export {};"))
           ([] ++ [OpenRead "api.ts"]))
  /\ has_write
       (file_ops (snd (convert_file "api.ts"
          (World (Directory {["api.ts" := TextFile (lit "export {};") false]})
                 [] []))))
     = false
  /\ convert_all ["api.ts"] 0
       (World (Directory {["api.ts" := TextFile (lit "export {};") false]})
              [] [])
     = convert_all [] 0
         (World (Directory {["api.ts" := TextFile (lit "export {};") false]})
                ([] ++ convert_messages "api.ts" (lit "export {};"))
                ([] ++ [OpenRead "api.ts"]))
  /\ returns_true (Directory {["api.ts" := TextFile (lit "export {};") false]})
                  "api.ts" = false
  /\ forall total,
       Updated total
       ∈ stdout (snd (main key_order (boot (Directory
                   {["api.ts" := TextFile (lit "export {};") false]})))) ->
       total = length (filter
                 (fun n => returns_true (Directory
                    {["api.ts" := TextFile (lit "export {};") false]}) n = true)
                 (ts_names key_order
                    {["api.ts" := TextFile (lit "export {};") false]})).
Proof.
  apply (unchanged_file_not_written key_order key_order_lists
           "api.ts" (lit "export {};") false
           {["api.ts" := TextFile (lit "export {};") false]} [] [] [] 0);
    vm_compute; reflexivity.
Defined.



(** C7, as stated, fails on a directory whose only match is a
    sub-directory named [generated.ts]: no file matches, yet one entry is
    found and the run ends on the exception with status 1. *)
Lemma no_matching_file_counterexample :
  (forall name e,
     ({["generated.ts" := SubDir]} : gmap string entry) !! name = Some e ->
     matches_ts name = true -> is_file e = false)
  /\ stdout (snd (run_script key_order
                    (Directory {["generated.ts" := SubDir]})))
     = [FoundFiles 1; Converting "services/supabase/generated.ts"]
  /\ ~ run_script key_order (Directory {["generated.ts" := SubDir]})
       = (0%Z,
          World (Directory {["generated.ts" := SubDir]})
                [FoundFiles 0; Updated 0; NextStep; SeeExamples] []).
Proof.
  split.
  { intros name e [_ <-]%lookup_singleton_Some _. reflexivity. }
  split; [vm_compute; reflexivity|].
  intros H. apply (f_equal fst) in H. vm_compute in H. discriminate H.
Qed.

Lemma main_nothing_to_do_witness :
  run_script reverse_key_order
    (Directory {["README.md" := TextFile (lit "# services") true]})
  = (0%Z,
     World (Directory {["README.md" := TextFile (lit "# services") true]})
           [FoundFiles 0; Updated 0; NextStep; SeeExamples] []).
Proof.
  apply (main_nothing_to_do reverse_key_order reverse_key_order_lists).
  intros name [e He].
  apply lookup_singleton_Some in He as [<- _]. reflexivity.
Defined.





Lemma main_stops_at_first_failure_witness :
  exists l1 n l2 entries',
    ts_names key_order locked_files = l1 ++ n :: l2
    /\ (forall x, x ∈ l1 -> convertible locked_files x = true)
    /\ convertible locked_files n = false
    /\ run_script key_order (Directory locked_files)
       = (1%Z,
          World (Directory entries')
                (FoundFiles (length (ts_names key_order locked_files))
                 :: flat_map (fun x => printed_by x (Directory locked_files))
                             l1
                 ++ printed_by n (Directory locked_files))
                (flat_map (ops_of locked_files) l1 ++ ops_of locked_files n))
    /\ (forall total,
          Updated total
          ∉ stdout (snd (run_script key_order (Directory locked_files))))
    /\ forall x,
         entries' !! x
         = if decide (x ∈ l1) then patch_entry <$> locked_files !! x
           else locked_files !! x.
Proof.
  apply (main_stops_at_first_failure key_order key_order_lists
           locked_files "api.ts").
  - vm_compute. by eexists.
  - reflexivity.
  - vm_compute. reflexivity.
Defined.

Lemma second_run_changes_nothing_witness :
  exists entries1 out2 ops2,
    disk (snd (run_script key_order (Directory mixed_files)))
    = Directory entries1
    /\ run_script key_order (Directory entries1)
       = (0%Z, World (Directory entries1) out2 ops2)
    /\ Updated 0 ∈ out2
    /\ has_write ops2 = false.
Proof.
  apply (second_run_changes_nothing key_order key_order_lists mixed_files).
  vm_compute. reflexivity.
Defined.

Lemma main_opens_only_ts_files_witness :
  exists entries,
    Directory locked_files = Directory entries
    /\ matches_ts (op_name (OpenWrite "api.ts"
                      (import_pattern ++ LF :: retry_import ++ [LF]))) = true
    /\ is_Some (entries !! op_name (OpenWrite "api.ts"
                      (import_pattern ++ LF :: retry_import ++ [LF])))
    /\ exists c wr, entries !! "api.ts" = Some (TextFile c wr)
                    /\ import_pattern ++ LF :: retry_import ++ [LF]
                       = new_content c
                    /\ import_pattern ++ LF :: retry_import ++ [LF] <> c.
Proof.
  apply (main_opens_only_ts_files reverse_key_order reverse_key_order_lists
           (Directory locked_files)
           (OpenWrite "api.ts" (import_pattern ++ LF :: retry_import ++ [LF]))).
  vm_compute. repeat constructor.
Defined.


Lemma summary_iff_success_witness :
  (exists total,
     Updated total
     ∈ stdout (snd (run_script key_order (Directory locked_files))))
  <-> fst (run_script key_order (Directory locked_files)) = 0%Z.
Proof. apply (summary_iff_success key_order key_order_lists). Defined.

Lemma updated_at_most_found_witness :
  FoundFiles 3 ∈ stdout (snd (run_script key_order (Directory mixed_files)))
  /\ Updated 1 ∈ stdout (snd (run_script key_order (Directory mixed_files)))
  /\ 1 <= 3.
Proof.
  split; [vm_compute; repeat constructor|].
  split; [vm_compute; repeat constructor|].
  apply (updated_at_most_found key_order key_order_lists
           (Directory mixed_files) 3 1);
    vm_compute; repeat constructor.
Defined.

(** ** Runs on sample directories *)

Example run_sample_dir :
  fst (run_script key_order sample_dir) = 0%Z
  /\ stdout (snd (run_script key_order sample_dir))
     = [FoundFiles 2;
        Converting "services/supabase/worlds.ts"; AddedImport;
        FoundPatterns 1; ManualRecommended;
        Converting "services/supabase/stories.ts";
        FoundPatterns 1; ManualRecommended;
        Updated 1; NextStep; SeeExamples]
  /\ file_ops (snd (run_script key_order sample_dir))
     = [OpenRead "worlds.ts";
        OpenWrite "worlds.ts"
          (import_pattern ++ LF :: retry_import
             ++ LF :: lit "Promise.race([q, t]);");
        OpenRead "stories.ts"].
Proof. vm_compute. auto. Qed.

(** The same directory, listed the other way round: the same files are
    converted, in the other order. *)
Example run_sample_dir_reversed :
  fst (run_script reverse_key_order sample_dir) = 0%Z
  /\ stdout (snd (run_script reverse_key_order sample_dir))
     = [FoundFiles 2;
        Converting "services/supabase/stories.ts";
        FoundPatterns 1; ManualRecommended;
        Converting "services/supabase/worlds.ts"; AddedImport;
        FoundPatterns 1; ManualRecommended;
        Updated 1; NextStep; SeeExamples]
  /\ disk (snd (run_script reverse_key_order sample_dir))
     = disk (snd (run_script key_order sample_dir)).
Proof. vm_compute. auto. Qed.

(** A text file that needs the import and cannot be opened for writing:
    the run ends there with status 1 and the file is as it was. *)
Example run_locked_files :
  fst (run_script key_order (Directory locked_files)) = 1%Z
  /\ disk (snd (run_script key_order (Directory locked_files)))
     = Directory locked_files
  /\ has_write (file_ops (snd (run_script key_order (Directory locked_files))))
     = true.
Proof. vm_compute. auto. Qed.

Example render_lines :
  render (FoundPatterns 12) = "  → Found 12 Promise.race patterns"
  /\ render (Converting (path_of "worlds.ts"))
     = "Converting: services/supabase/worlds.ts"
  /\ matches_ts "a.d.ts" = true /\ matches_ts ".ts" = true
  /\ matches_ts "a.tsx" = false /\ matches_ts "ts" = false.
Proof. vm_compute. auto 10. Qed.
